(** * The HTTP server mux of pkg/object/httpserver/mux.go

    A shallow embedding of the request router (the [muxInstance] revision of
    the file: [newIPFilterChain], [allowIP], the route cache accessors,
    [muxRule.match], [MuxPath.matchPath/matchMethod/matchHeaders], [reload],
    [search] and [serveHTTP]) together with the properties of the routing
    specification that can be settled on it.

    Go pointers that may be nil are [option]s; the route cache, the only
    mutable part of a published instance, is threaded through the functions
    that touch it; a nil-pointer dereference is an explicit outcome.

    The development also covers the X-Forwarded-For stamping, the earlier
    [muxRules] revision of the same file, [Response.MetaSize] of
    pkg/protocols/httpprot/response.go and [httpServerConfig.Prepare] of
    src/plugins/http_server.go. *)

From Stdlib Require Import String Ascii List ZArith NArith Bool Lia DecimalString.
Import ListNotations.
Open Scope string_scope.
Open Scope list_scope.

Set Implicit Arguments.

(** ** net/http status codes *)

Definition StatusOK : Z := 200.
Definition StatusBadRequest : Z := 400.
Definition StatusForbidden : Z := 403.
Definition StatusNotFound : Z := 404.
Definition StatusMethodNotAllowed : Z := 405.
Definition StatusServiceUnavailable : Z := 503.

(** ** Outcome of a Go call that may dereference a nil pointer *)

Inductive exec (A : Type) : Type :=
| Done (a : A)
| Panic.
Arguments Panic {A}.

(** ** Data of the collaborating packages *)

(** [ipfilter.Spec]: the two CIDR lists of a filter. *)
Record ipfilter_Spec := {
  AllowIPs : list string;
  BlockIPs : list string
}.

(** [*ipfilter.IPFilter], built by [ipfilter.New]. *)
Record IPFilter := ipfilter_New { filterSpec : ipfilter_Spec }.

(** [*ipfilter.IPFilters], built by [ipfilter.NewIPFilters(filters...)]. *)
Record IPFilters := NewIPFilters { Filters : list IPFilter }.

Definition Append (fs : IPFilters) (f : IPFilter) : IPFilters :=
  NewIPFilters (Filters fs ++ [f]).

(** [*regexp.Regexp]: a compiled expression, kept as its source text. *)
Record regexp_Regexp := { expr : string }.

(** [Header] of the server spec after [initHeaderRoute]: [headerRE] is the
    compiled form of [Regexp]. *)
Record Header := {
  Key : string;
  Values : list string;
  Regexp : string;
  headerRE : regexp_Regexp
}.

(** [*http.Request], the parts the mux reads.  [Header] maps a canonical key
    to its values; [Body] is [None] when reading the body fails. *)
Record Request := {
  Host : string;
  Method : string;
  URL_Path : string;
  Req_Header : list (string * list string);
  RemoteAddr : string;
  ContentLength : Z;
  Body : option string
}.

(** ** The matcher tree *)

Record MuxPath := {
  path_ipFilter : option IPFilter;
  path_ipFilterChain : option IPFilters;
  path : string;
  pathPrefix : string;
  pathRegexp : string;
  pathRE : option regexp_Regexp;
  methods : list string;
  rewriteTarget : string;
  backend : string;
  headers : list Header
}.

Record muxRule := {
  rule_ipFilter : option IPFilter;
  rule_ipFilterChain : option IPFilters;
  host : string;
  hostRegexp : string;
  hostRE : option regexp_Regexp;
  paths : list MuxPath
}.

Record route := {
  code : Z;
  route_path : option MuxPath
}.

Definition notFound : route := {| code := StatusNotFound; route_path := None |}.
Definition forbidden : route := {| code := StatusForbidden; route_path := None |}.
Definition methodNotAllowed : route :=
  {| code := StatusMethodNotAllowed; route_path := None |}.
Definition badRequest : route := {| code := StatusBadRequest; route_path := None |}.

(** The route [&route{code: http.StatusOK, path: path}]. *)
Definition okRoute (p : MuxPath) : route :=
  {| code := StatusOK; route_path := Some p |}.

(** ** The route cache

    [lru.ARCCache] belongs to github.com/hashicorp/golang-lru.  It is
    modelled as a bounded list of entries, most recently used first: [Get]
    and [Add] find and store entries as the library does, and [Add] always
    keeps the entry it stores; which other entry is dropped at capacity is
    simplified to the least recently used one. *)

Record ARCCache := {
  size : nat;
  items : list (string * route)
}.

Fixpoint lookup (k : string) (l : list (string * route)) : option route :=
  match l with
  | [] => None
  | (k', v) :: rest => if String.eqb k k' then Some v else lookup k rest
  end.

Fixpoint remove_key (k : string) (l : list (string * route)) : list (string * route) :=
  match l with
  | [] => []
  | (k', v) :: rest =>
      if String.eqb k k' then remove_key k rest else (k', v) :: remove_key k rest
  end.

Definition ARCCache_Get (c : ARCCache) (k : string) : option route * ARCCache :=
  match lookup k (items c) with
  | Some v => (Some v, {| size := size c; items := (k, v) :: remove_key k (items c) |})
  | None => (None, c)
  end.

Definition ARCCache_Add (c : ARCCache) (k : string) (v : route) : ARCCache :=
  {| size := size c;
     items := (k, v) :: firstn (size c - 1) (remove_key k (items c)) |}.

(** [lru.NewARC(size)]: an error, hence no cache, unless [size] is positive. *)
Definition lru_NewARC (n : N) : option ARCCache :=
  if (0 <? n)%N then Some {| size := N.to_nat n; items := [] |} else None.

Record muxInstance := {
  cache : option ARCCache;
  inst_ipFilter : option IPFilter;
  inst_ipFilterChan : option IPFilters;
  rules : list muxRule
}.

Definition with_cache (mi : muxInstance) (c : option ARCCache) : muxInstance :=
  {| cache := c;
     inst_ipFilter := inst_ipFilter mi;
     inst_ipFilterChan := inst_ipFilterChan mi;
     rules := rules mi |}.

(** ** The server spec, as [reload] and [newMuxPath] read it *)

(** Modelled from the spec: the [Path] struct is declared in spec.go, which is
    not part of the sources at hand.  Its fields are those [newMuxPath] reads,
    plus [MatchAllHeader], the [match_all_header] option of the specification's
    data model. *)
Record Path := {
  Path_IPFilter : option ipfilter_Spec;
  Path_Path : string;
  Path_PathPrefix : string;
  Path_PathRegexp : string;
  Path_RewriteTarget : string;
  Path_Methods : list string;
  Path_Backend : string;
  Path_Headers : list Header;
  MatchAllHeader : bool
}.

Record Rule := {
  Rule_IPFilter : option ipfilter_Spec;
  Rule_Host : string;
  Rule_HostRegexp : string;
  Rule_Paths : list Path
}.

Record Spec := {
  Spec_IPFilter : option ipfilter_Spec;
  CacheSize : N;
  Spec_Rules : list Rule
}.

(** ** Functions of the Go libraries the mux calls

    They are parameters of the development: [realip.FromRequest],
    [net.SplitHostPort] (the host part, when the address splits),
    [textproto.CanonicalMIMEHeaderKey], the regexp engine, the CIDR test of
    the IP filter, and what [IPFilter.Allow] does on a nil receiver
    (the ipfilter package is not among the sources: it may return a boolean
    or dereference the receiver). *)
Class Externals := {
  realip_FromRequest : Request -> string;
  net_SplitHostPort : string -> option string;
  CanonicalMIMEHeaderKey : string -> string;
  regexp_Compile : string -> option regexp_Regexp;
  MatchString : regexp_Regexp -> string -> bool;
  ReplaceAllString : regexp_Regexp -> string -> string -> string;
  cidr_Contains : string -> string -> bool;
  nil_Allow : exec bool
}.

Section Mux.

Context {E : Externals}.

(** [stringtool.StrInSlice]. *)
Definition StrInSlice (s : string) (l : list string) : bool :=
  existsb (String.eqb s) l.

(** [http.Header.Get]: the first value stored under the canonical key. *)
Fixpoint Header_values (k : string) (h : list (string * list string)) : list string :=
  match h with
  | [] => []
  | (k', vs) :: rest => if String.eqb k k' then vs else Header_values k rest
  end.

Definition Header_Get (h : list (string * list string)) (k : string) : string :=
  match Header_values (CanonicalMIMEHeaderKey k) h with
  | [] => ""
  | v :: _ => v
  end.

(** Modelled from the spec: the decision of a present filter
    ([IPFilter.Allow] is in pkg/util/ipfilter, not among the sources):
    deny when the block list contains the address, else deny when the allow
    list is nonempty and does not contain it, else allow. *)
Definition filter_allows (f : IPFilter) (ip : string) : bool :=
  if existsb (fun c => cidr_Contains c ip) (BlockIPs (filterSpec f)) then false
  else match AllowIPs (filterSpec f) with
       | [] => true
       | allow => existsb (fun c => cidr_Contains c ip) allow
       end.

(** [f.Allow(ip)] on a pointer that may be nil. *)
Definition IPFilter_Allow (f : option IPFilter) (ip : string) : exec bool :=
  match f with
  | None => nil_Allow
  | Some f => Done (filter_allows f ip)
  end.

(** Modelled from the spec: [IPFilters.Allow], in pkg/util/ipfilter, not among
    the sources: a chain allows an address when every filter of it does. *)
Definition IPFilters_Allow (fs : IPFilters) (ip : string) : bool :=
  forallb (fun f => filter_allows f ip) (Filters fs).

Definition newIPFilterChain (parentIPFilters : option IPFilters)
    (childSpec : option ipfilter_Spec) : option IPFilters :=
  let ipFilters :=
    match parentIPFilters with
    | Some p => NewIPFilters (Filters p)
    | None => NewIPFilters []
    end in
  let ipFilters :=
    match childSpec with
    | Some s => Append ipFilters (ipfilter_New s)
    | None => ipFilters
    end in
  if (length (Filters ipFilters) =? 0)%nat then None else Some ipFilters.

Definition newIPFilter (spec : option ipfilter_Spec) : option IPFilter :=
  match spec with
  | None => None
  | Some s => Some (ipfilter_New s)
  end.

Definition allowIP (ipFilter : option IPFilter) (ip : string) : bool :=
  match ipFilter with
  | None => true
  | Some f => filter_allows f ip
  end.

(** [stringtool.Cat(req.Host, req.Method, req.URL.Path)]. *)
Definition cacheKey (req : Request) : string :=
  Host req ++ Method req ++ URL_Path req.

Definition getCacheRoute (mi : muxInstance) (req : Request)
    : option route * muxInstance :=
  match cache mi with
  | Some c =>
      let '(v, c') := ARCCache_Get c (cacheKey req) in
      (v, with_cache mi (Some c'))
  | None => (None, mi)
  end.

Definition putRouteToCache (mi : muxInstance) (req : Request) (r : route)
    : muxInstance :=
  match cache mi with
  | Some c => with_cache mi (Some (ARCCache_Add c (cacheKey req) r))
  | None => mi
  end.

Definition newMuxRule (parentIPFilters : option IPFilters) (rule : Rule)
    (paths : list MuxPath) : muxRule :=
  let hostRE :=
    if String.eqb (Rule_HostRegexp rule) "" then None
    else regexp_Compile (Rule_HostRegexp rule) in
  {| rule_ipFilter := newIPFilter (Rule_IPFilter rule);
     rule_ipFilterChain := newIPFilterChain parentIPFilters (Rule_IPFilter rule);
     host := Rule_Host rule;
     hostRegexp := Rule_HostRegexp rule;
     hostRE := hostRE;
     paths := paths |}.

Definition muxRule_match (mr : muxRule) (r : Request) : bool :=
  if String.eqb (host mr) "" && (match hostRE mr with None => true | Some _ => false end)
  then true
  else
    let h := match net_SplitHostPort (Host r) with
             | Some h => h
             | None => Host r
             end in
    if negb (String.eqb (host mr) "") && String.eqb (host mr) h then true
    else match hostRE mr with
         | Some re => MatchString re h
         | None => false
         end.

Definition newMuxPath (parentIPFilters : option IPFilters) (p : Path) : MuxPath :=
  let pathRE :=
    if String.eqb (Path_PathRegexp p) "" then None
    else regexp_Compile (Path_PathRegexp p) in
  {| path_ipFilter := newIPFilter (Path_IPFilter p);
     path_ipFilterChain := newIPFilterChain parentIPFilters (Path_IPFilter p);
     path := Path_Path p;
     pathPrefix := Path_PathPrefix p;
     pathRegexp := Path_PathRegexp p;
     pathRE := pathRE;
     methods := Path_Methods p;
     rewriteTarget := Path_RewriteTarget p;
     backend := Path_Backend p;
     headers := Path_Headers p |}.

Definition matchPath (mp : MuxPath) (r : Request) : bool :=
  if String.eqb (path mp) "" && String.eqb (pathPrefix mp) ""
     && (match pathRE mp with None => true | Some _ => false end)
  then true
  else if negb (String.eqb (path mp) "") && String.eqb (path mp) (URL_Path r) then true
  else if negb (String.eqb (pathPrefix mp) "") && String.prefix (pathPrefix mp) (URL_Path r)
  then true
  else match pathRE mp with
       | Some re => MatchString re (URL_Path r)
       | None => false
       end.

Definition matchMethod (mp : MuxPath) (r : Request) : bool :=
  if (length (methods mp) =? 0)%nat then true
  else StrInSlice (Method r) (methods mp).

(** One turn of the loop of [matchHeaders]: does predicate [h] accept the
    request? *)
Definition headerMatches (h : Header) (r : Request) : bool :=
  let v := Header_Get (Req_Header r) (Key h) in
  if StrInSlice v (Values h) then true
  else negb (String.eqb (Regexp h) "") && MatchString (headerRE h) v.

Fixpoint matchHeaders_loop (hs : list Header) (r : Request) : bool :=
  match hs with
  | [] => false
  | h :: rest => if headerMatches h r then true else matchHeaders_loop rest r
  end.

Definition matchHeaders (mp : MuxPath) (r : Request) : bool :=
  matchHeaders_loop (headers mp) r.

Definition reload (spec : Spec) : muxInstance :=
  let ipFilterChan := newIPFilterChain None (Spec_IPFilter spec) in
  {| cache := if (0 <? CacheSize spec)%N then lru_NewARC (CacheSize spec) else None;
     inst_ipFilter := newIPFilter (Spec_IPFilter spec);
     inst_ipFilterChan := ipFilterChan;
     rules :=
       map (fun specRule =>
              let ruleIPFilterChain :=
                newIPFilterChain ipFilterChan (Rule_IPFilter specRule) in
              let paths := map (newMuxPath ruleIPFilterChain) (Rule_Paths specRule) in
              newMuxRule ipFilterChan specRule paths)
           (Spec_Rules spec) |}.

(** ** search *)

(** The local variables of [search] that live across loop turns. *)
Record locals := {
  r : option route;
  headerMismatch : bool;
  methodMismatch : bool
}.

Definition initLocals : locals :=
  {| r := None; headerMismatch := false; methodMismatch := false |}.

(** How a loop turn ends: the loop goes on, [search] returns, or a nil
    pointer is dereferenced.  The instance carries the cache as left by the
    turn. *)
Inductive flow : Type :=
| Continue (l : locals) (mi : muxInstance)
| Return (v : option route) (mi : muxInstance)
| Crash (mi : muxInstance).

(** The body of [for _, path := range host.paths]. *)
Definition visitPath (req : Request) (ip : string) (p : MuxPath)
    (l : locals) (mi : muxInstance) : flow :=
  if negb (matchPath p req) then Continue l mi
  else if negb (matchMethod p req) then
    Continue {| r := r l; headerMismatch := headerMismatch l; methodMismatch := true |} mi
  else
    let '(l, mi) :=
      if (length (headers p) =? 0)%nat then
        ({| r := Some (okRoute p);
            headerMismatch := headerMismatch l;
            methodMismatch := methodMismatch l |},
         putRouteToCache mi req (okRoute p))
      else (l, mi) in
    if negb (matchHeaders p req) then
      Continue {| r := r l; headerMismatch := true; methodMismatch := methodMismatch l |} mi
    else if negb (allowIP (path_ipFilter p) ip) then Return (Some forbidden) mi
    else Return (r l) mi.

Fixpoint rangePaths (req : Request) (ip : string) (ps : list MuxPath)
    (l : locals) (mi : muxInstance) : flow :=
  match ps with
  | [] => Continue l mi
  | p :: rest =>
      match visitPath req ip p l mi with
      | Continue l' mi' => rangePaths req ip rest l' mi'
      | stop => stop
      end
  end.

(** The body of [for _, host := range mi.rules]. *)
Definition visitRule (req : Request) (ip : string) (h : muxRule)
    (l : locals) (mi : muxInstance) : flow :=
  if negb (muxRule_match h req) then Continue l mi
  else
    match IPFilter_Allow (rule_ipFilter h) ip with
    | Panic => Crash mi
    | Done false => Return (Some forbidden) mi
    | Done true => rangePaths req ip (paths h) l mi
    end.

Fixpoint rangeRules (req : Request) (ip : string) (hs : list muxRule)
    (l : locals) (mi : muxInstance) : flow :=
  match hs with
  | [] => Continue l mi
  | h :: rest =>
      match visitRule req ip h l mi with
      | Continue l' mi' => rangeRules req ip rest l' mi'
      | stop => stop
      end
  end.

(** The cache-hit branch of [search]: [r] is the route found in the cache. *)
Definition cacheHit (r : route) (ip : string) : exec (option route) :=
  if negb (code r =? StatusOK)%Z then Done (Some r)
  else
    match route_path r with
    | None => Panic
    | Some p =>
        match path_ipFilterChain p with
        | None => Done (Some r)
        | Some _ =>
            match IPFilter_Allow (path_ipFilter p) ip with
            | Panic => Panic
            | Done true => Done (Some r)
            | Done false => Done (Some forbidden)
            end
        end
    end.

(** The statements of [search] after the loops. *)
Definition fallbacks (req : Request) (l : locals) (mi : muxInstance)
    : exec (option route) * muxInstance :=
  if headerMismatch l then (Done (Some badRequest), mi)
  else if methodMismatch l then
    (Done (Some methodNotAllowed), putRouteToCache mi req methodNotAllowed)
  else (Done (Some notFound), putRouteToCache mi req notFound).

(** [search] returns a [*route], possibly nil, or panics; the instance
    returned holds the cache as the call leaves it. *)
Definition search (mi : muxInstance) (req : Request)
    : exec (option route) * muxInstance :=
  let ip := realip_FromRequest req in
  match getCacheRoute mi req with
  | (Some r, mi) => (cacheHit r ip, mi)
  | (None, mi) =>
      if negb (allowIP (inst_ipFilter mi) ip) then (Done (Some forbidden), mi)
      else
        match rangeRules req ip (rules mi) initLocals mi with
        | Return v mi => (Done v, mi)
        | Crash mi => (Panic, mi)
        | Continue l mi => fallbacks req l mi
        end
  end.

(** ** serveHTTP *)

(** What [serveHTTP] does with the request: it writes a bare status, or hands
    the request, with its URL path as left by the rewrite step, to the
    handler of a backend. *)
Inductive response : Type :=
| WriteHeader (status : Z)
| Handle (backendName : string) (urlPath : string).

(** The rewrite step of [serveHTTP]: the URL path after it. *)
Definition rewrite (p : MuxPath) (urlPath : string) : string :=
  match pathRE p with
  | Some re =>
      if negb (String.eqb (rewriteTarget p) "")
      then ReplaceAllString re urlPath (rewriteTarget p)
      else urlPath
  | None => urlPath
  end.

(** [wrapRequest] fails when the body has to be read and reading fails. *)
Definition wrapRequest_fails (req : Request) : bool :=
  if (0 <? ContentLength req)%Z then
    match Body req with
    | Some b => (Z.of_nat (String.length b) <? ContentLength req)%Z
    | None => true
    end
  else if (ContentLength req =? -1)%Z then
    match Body req with Some _ => false | None => true end
  else false.

(** [GetHandler] is the [context.MuxMapper] of the instance: does a backend
    name have a handler? *)
Definition serveHTTP (GetHandler : string -> bool) (mi : muxInstance) (stdr : Request)
    : exec response * muxInstance :=
  match search mi stdr with
  | (Panic, mi) => (Panic, mi)
  | (Done None, mi) => (Panic, mi)
  | (Done (Some route), mi) =>
      if negb (code route =? StatusOK)%Z then (Done (WriteHeader (code route)), mi)
      else
        match route_path route with
        | None => (Panic, mi)
        | Some p =>
            if negb (GetHandler (backend p)) then
              (Done (WriteHeader StatusServiceUnavailable), mi)
            else
              let urlPath := rewrite p (URL_Path stdr) in
              if wrapRequest_fails stdr then (Done (WriteHeader StatusBadRequest), mi)
              else (Done (Handle (backend p) urlPath), mi)
        end
  end.

End Mux.

(** ** A concrete instance of the library functions

    Used to run the mux on concrete requests: the client address is the
    [X-Real-Ip] header when set and the peer address otherwise, as
    [realip.FromRequest] answers when no [X-Forwarded-For] is sent; a host
    splits at its last colon when the rest has none; a header key made of
    letters, digits and hyphens is canonical with an upper-case letter first
    and after each hyphen, lower-case letters elsewhere; every expression
    compiles, and an expression matches the strings equal to it; a CIDR entry
    is a single address.
    [nilAllow] is the behaviour of [Allow] on a nil receiver. *)

Fixpoint beforeLastColon (s : string) : option string :=
  match s with
  | EmptyString => None
  | String c rest =>
      match beforeLastColon rest with
      | Some h => Some (String c h)
      | None => if Ascii.eqb c ":" then Some EmptyString else None
      end
  end.

Definition splitHostPort (hostport : string) : option string :=
  match beforeLastColon hostport with
  | Some h => match beforeLastColon h with
              | Some _ => None
              | None => Some h
              end
  | None => None
  end.

Definition upperAscii (c : ascii) : ascii :=
  let n := nat_of_ascii c in
  if ((97 <=? n) && (n <=? 122))%nat then ascii_of_nat (n - 32) else c.

Definition lowerAscii (c : ascii) : ascii :=
  let n := nat_of_ascii c in
  if ((65 <=? n) && (n <=? 90))%nat then ascii_of_nat (n + 32) else c.

Fixpoint canonicalKey (upper : bool) (s : string) : string :=
  match s with
  | EmptyString => EmptyString
  | String c rest =>
      String (if upper then upperAscii c else lowerAscii c)
             (canonicalKey (Ascii.eqb c "-") rest)
  end.

Definition realIP (req : Request) : string :=
  match Header_values "X-Real-Ip" (Req_Header req) with
  | v :: _ => if String.eqb v "" then RemoteAddr req else v
  | [] => RemoteAddr req
  end.

Definition simpleExternals (nilAllow : exec bool) : Externals := {|
  realip_FromRequest := realIP;
  net_SplitHostPort := splitHostPort;
  CanonicalMIMEHeaderKey := canonicalKey true;
  regexp_Compile := fun s => Some {| expr := s |};
  MatchString := fun re s => String.eqb (expr re) s;
  ReplaceAllString := fun re s repl => if String.eqb (expr re) s then repl else s;
  cidr_Contains := String.eqb;
  nil_Allow := nilAllow
|}.

Definition get (host urlPath : string) (hdr : list (string * list string)) : Request :=
  {| Host := host; Method := "GET"; URL_Path := urlPath; Req_Header := hdr;
     RemoteAddr := "10.0.0.1:4711"; ContentLength := 0; Body := Some "" |}.

Definition plainPath (p b : string) : Path :=
  {| Path_IPFilter := None; Path_Path := p; Path_PathPrefix := "";
     Path_PathRegexp := ""; Path_RewriteTarget := ""; Path_Methods := [];
     Path_Backend := b; Path_Headers := []; MatchAllHeader := false |}.

Definition abcSpec (n : N) : Spec :=
  {| Spec_IPFilter := None; CacheSize := n;
     Spec_Rules := [ {| Rule_IPFilter := None; Rule_Host := "www.megaease.com";
                        Rule_HostRegexp := "";
                        Rule_Paths := [ plainPath "/abc" "abc-pipeline" ] |} ] |}.

Definition abcRequest : Request := get "www.megaease.com:8080" "/abc" [].

(** The configuration of the search test of the repository, as far as this
    revision of the mux reads it: a server filter, a rule filter, and the
    paths [/abc] (own filter), [/xyz] (PUT only) and [/123] (GET, with a
    header predicate). *)
Definition blockOnly (ips : list string) : option ipfilter_Spec :=
  Some {| AllowIPs := []; BlockIPs := ips |}.

Definition xTest : Header :=
  {| Key := "X-Test"; Values := ["test1"; "test2"]; Regexp := "";
     headerRE := {| expr := "" |} |}.

Definition allMatch : Header :=
  {| Key := "AllMatch"; Values := ["true"]; Regexp := "";
     headerRE := {| expr := "" |} |}.

Definition abcPath : Path :=
  {| Path_IPFilter := blockOnly ["192.168.1.3"]; Path_Path := "/abc";
     Path_PathPrefix := ""; Path_PathRegexp := ""; Path_RewriteTarget := "";
     Path_Methods := []; Path_Backend := "abc-pipeline"; Path_Headers := [];
     MatchAllHeader := false |}.

Definition xyzPath : Path :=
  {| Path_IPFilter := None; Path_Path := "/xyz";
     Path_PathPrefix := ""; Path_PathRegexp := ""; Path_RewriteTarget := "";
     Path_Methods := ["PUT"]; Path_Backend := "xyz-pipeline"; Path_Headers := [];
     MatchAllHeader := false |}.

Definition path123 : Path :=
  {| Path_IPFilter := None; Path_Path := "/123";
     Path_PathPrefix := ""; Path_PathRegexp := ""; Path_RewriteTarget := "";
     Path_Methods := ["GET"]; Path_Backend := "123-pipeline"; Path_Headers := [xTest];
     MatchAllHeader := false |}.

Definition headerAllMatch2 : Path :=
  {| Path_IPFilter := None; Path_Path := "/headerAllMatch2";
     Path_PathPrefix := ""; Path_PathRegexp := ""; Path_RewriteTarget := "";
     Path_Methods := ["GET"]; Path_Backend := "123-pipeline";
     Path_Headers := [xTest; allMatch]; MatchAllHeader := true |}.

Definition testSpec : Spec :=
  {| Spec_IPFilter := blockOnly ["192.168.1.1"]; CacheSize := 100;
     Spec_Rules :=
       [ {| Rule_IPFilter := blockOnly ["192.168.1.2"];
            Rule_Host := "www.megaease.com"; Rule_HostRegexp := "";
            Rule_Paths := [abcPath; xyzPath; path123; headerAllMatch2] |} ] |}.

Definition from (ip : string) : list (string * list string) := [("X-Real-Ip", [ip])].

(** Two siblings on [/a]: the first without header predicates and closed to
    192.168.1.3, the second with a header predicate and open to everyone. *)
Definition firstSibling : Path :=
  {| Path_IPFilter := blockOnly ["192.168.1.3"]; Path_Path := "/a";
     Path_PathPrefix := ""; Path_PathRegexp := ""; Path_RewriteTarget := "";
     Path_Methods := []; Path_Backend := "first"; Path_Headers := [];
     MatchAllHeader := false |}.

Definition secondSibling : Path :=
  {| Path_IPFilter := None; Path_Path := "/a";
     Path_PathPrefix := ""; Path_PathRegexp := ""; Path_RewriteTarget := "";
     Path_Methods := []; Path_Backend := "second"; Path_Headers := [xTest];
     MatchAllHeader := false |}.

Definition siblingSpec : Spec :=
  {| Spec_IPFilter := None; CacheSize := 100;
     Spec_Rules :=
       [ {| Rule_IPFilter := blockOnly ["192.168.1.2"];
            Rule_Host := ""; Rule_HostRegexp := "";
            Rule_Paths := [firstSibling; secondSibling] |} ] |}.

(** After the dispatcher test of the repository: [/abc] with a rewrite target
    and no expression, here under a rule filter and a path filter. *)
Definition rewriteSpec : Spec :=
  {| Spec_IPFilter := None; CacheSize := 100;
     Spec_Rules :=
       [ {| Rule_IPFilter := blockOnly ["192.168.1.2"];
            Rule_Host := "www.megaease.com"; Rule_HostRegexp := "";
            Rule_Paths :=
              [ {| Path_IPFilter := blockOnly ["192.168.1.3"]; Path_Path := "/abc";
                   Path_PathPrefix := ""; Path_PathRegexp := "";
                   Path_RewriteTarget := "/newabc"; Path_Methods := [];
                   Path_Backend := "abc-pipeline"; Path_Headers := [];
                   MatchAllHeader := false |} ] |} ] |}.

(** After the path test of the repository: the literal path [/abc] with the
    rewrite target [/xyz], and the prefix [/xy] with the rewrite target
    [/ab]; neither has an expression. *)
Definition rewriteExact : Path :=
  {| Path_IPFilter := None; Path_Path := "/abc";
     Path_PathPrefix := ""; Path_PathRegexp := ""; Path_RewriteTarget := "/xyz";
     Path_Methods := []; Path_Backend := ""; Path_Headers := [];
     MatchAllHeader := false |}.

Definition rewritePrefix : Path :=
  {| Path_IPFilter := None; Path_Path := "";
     Path_PathPrefix := "/xy"; Path_PathRegexp := ""; Path_RewriteTarget := "/ab";
     Path_Methods := []; Path_Backend := ""; Path_Headers := [];
     MatchAllHeader := false |}.

(** ** Vocabulary of the properties *)

Section Vocabulary.

Context {E : Externals}.

(** The filters a chain pointer stands for, and those a child spec adds. *)
Definition chainFilters (c : option IPFilters) : list IPFilter :=
  match c with
  | Some p => Filters p
  | None => []
  end.

Definition childFilters (s : option ipfilter_Spec) : list IPFilter :=
  match s with
  | Some s => [ipfilter_New s]
  | None => []
  end.

(** Some path of a rule matching the host matched by path and method and
    failed the header check. *)
Definition failsHeaders (hs : list muxRule) (req : Request) : bool :=
  existsb (fun h => muxRule_match h req
                    && existsb (fun p => matchPath p req && matchMethod p req
                                         && negb (matchHeaders p req)) (paths h)) hs.

(** Some path of a rule matching the host matched by path and failed the
    method check. *)
Definition failsMethod (hs : list muxRule) (req : Request) : bool :=
  existsb (fun h => muxRule_match h req
                    && existsb (fun p => matchPath p req && negb (matchMethod p req))
                               (paths h)) hs.

(** What the cache of an instance stores under a key. *)
Definition stored (mi : muxInstance) (k : string) : option route :=
  match cache mi with
  | Some c => lookup k (items c)
  | None => None
  end.

(** The entries of the cache of an instance. *)
Definition entries (mi : muxInstance) : list (string * route) :=
  match cache mi with
  | Some c => items c
  | None => []
  end.

(** No BadRequest and no Forbidden verdict is in the cache. *)
Definition cacheClean (mi : muxInstance) : Prop :=
  forall k v, In (k, v) (entries mi) ->
    code v <> StatusBadRequest /\ code v <> StatusForbidden.

(** The instance after a sequence of calls of [search]. *)
Fixpoint searches (mi : muxInstance) (reqs : list Request) : muxInstance :=
  match reqs with
  | [] => mi
  | req :: rest => searches (snd (search mi req)) rest
  end.

Definition flowInstance (f : flow) : muxInstance :=
  match f with
  | Continue _ mi => mi
  | Return _ mi => mi
  | Crash mi => mi
  end.

End Vocabulary.

(** ** Further vocabulary: hosts, first match, routes of an instance *)

Section MoreVocabulary.

Context {E : Externals}.

(** The host [muxRule.match] compares with: the request's host, without its
    port when [net.SplitHostPort] splits it. *)
Definition comparedHost (rq : Request) : string :=
  match net_SplitHostPort (Host rq) with
  | Some h => h
  | None => Host rq
  end.

(** The three checks of the path loop that decide whether it stops at a
    path. *)
Definition passes (req : Request) (p : MuxPath) : bool :=
  matchPath p req && matchMethod p req && matchHeaders p req.

(** All the paths of an instance, rule after rule. *)
Definition instancePaths (mi : muxInstance) : list MuxPath :=
  flat_map paths (rules mi).

(** The routes search puts in a cache: the two cached terminal verdicts and
    the OK routes of paths, among [ps], without header predicates. *)
Definition validRoute (ps : list MuxPath) (v : route) : Prop :=
  v = notFound \/ v = methodNotAllowed
  \/ exists p, v = okRoute p /\ In p ps /\ headers p = [].

Definition cacheValid (ps : list MuxPath) (mi : muxInstance) : Prop :=
  forall k v, In (k, v) (entries mi) -> validRoute ps v.

(** The local [r] of search is nil or such an OK route. *)
Definition localsValid (ps : list MuxPath) (l : locals) : Prop :=
  r l = None \/ exists p, r l = Some (okRoute p) /\ In p ps /\ headers p = [].

(** What a loop turn may leave behind: valid locals or a return value that is
    Forbidden, nil or such an OK route, and a valid cache. *)
Definition flowValid (ps : list MuxPath) (f : flow) : Prop :=
  match f with
  | Continue l mi => localsValid ps l /\ cacheValid ps mi
  | Return v mi =>
      (v = Some forbidden \/ v = None
       \/ exists p, v = Some (okRoute p) /\ In p ps /\ headers p = [])
      /\ cacheValid ps mi
  | Crash mi => cacheValid ps mi
  end.

(** The verdicts of search: the four terminal routes and the OK routes of
    paths among [ps]. *)
Definition verdict (ps : list MuxPath) (rt : route) : Prop :=
  rt = forbidden \/ rt = badRequest \/ rt = methodNotAllowed \/ rt = notFound
  \/ exists p, rt = okRoute p /\ In p ps.

(** The filters a filter pointer stands for. *)
Definition ownFilters (f : option IPFilter) : list IPFilter :=
  match f with
  | Some f => [f]
  | None => []
  end.

End MoreVocabulary.

(** The library functions of [simpleExternals], with a regexp compiler that
    rejects the expression [/[a-z+], whose bracket is not closed. *)
Definition checkedExternals (nilAllow : exec bool) : Externals := {|
  realip_FromRequest := realIP;
  net_SplitHostPort := splitHostPort;
  CanonicalMIMEHeaderKey := canonicalKey true;
  regexp_Compile := fun s => if String.eqb s "/[a-z+" then None else Some {| expr := s |};
  MatchString := fun re s => String.eqb (expr re) s;
  ReplaceAllString := fun re s repl => if String.eqb (expr re) s then repl else s;
  cidr_Contains := String.eqb;
  nil_Allow := nilAllow
|}.

(** ** X-Forwarded-For stamping (appendXForwardedFor)

    The header wrappers of httpprot, which are not among the sources, are
    taken to act as the [http.Header] they wrap; the address stamped is the
    [RealIP] of the wrapped request, whatever it is. *)

Section Stamping.

Context {E : Externals}.

(** [strings.Contains]. *)
Fixpoint strings_Contains (s substr : string) : bool :=
  if String.prefix substr s then true
  else match s with
       | EmptyString => false
       | String _ rest => strings_Contains rest substr
       end.

(** The assignment [h[k] = vs] of a header map. *)
Fixpoint Header_store (k : string) (vs : list string) (h : list (string * list string))
    : list (string * list string) :=
  match h with
  | [] => [(k, vs)]
  | (k', vs') :: rest =>
      if String.eqb k k' then (k, vs) :: rest else (k', vs') :: Header_store k vs rest
  end.

(** [http.Header.Add] and [http.Header.Set]. *)
Definition Header_Add (h : list (string * list string)) (key value : string)
    : list (string * list string) :=
  let k := CanonicalMIMEHeaderKey key in
  Header_store k (Header_values k h ++ [value]) h.

Definition Header_Set (h : list (string * list string)) (key value : string)
    : list (string * list string) :=
  Header_store (CanonicalMIMEHeaderKey key) [value] h.

Definition xForwardedFor : string := "X-Forwarded-For".

(** [appendXForwardedFor] on the header of the request, [ip] being the
    [r.RealIP()] of the source. *)
Definition appendXForwardedFor (h : list (string * list string)) (ip : string)
    : list (string * list string) :=
  let v := Header_Get h xForwardedFor in
  if String.eqb v "" then Header_Add h xForwardedFor ip
  else if negb (strings_Contains v ip)
  then Header_Set h xForwardedFor (v ++ "," ++ ip)%string
  else h.

End Stamping.

(** ** pkg/protocols/httpprot/response.go: MetaSize *)

(** Go's [int], 64 bits wide: the value an arithmetic result wraps to. *)
Definition int_wrap (z : Z) : Z := (z + 2 ^ 63) mod 2 ^ 64 - 2 ^ 63.

Definition int_add (a b : Z) : Z := int_wrap (a + b).
Definition int_sub (a b : Z) : Z := int_wrap (a - b).
Definition int_mul (a b : Z) : Z := int_wrap (a * b).

(** [len(s)]. *)
Definition len (s : string) : Z := Z.of_nat (String.length s).

(** [strconv.Itoa]. *)
Definition strconv_Itoa (n : Z) : string := NilZero.string_of_int (Z.to_int n).

(** The part of [http.Response] that [MetaSize] reads. *)
Record Response := {
  Proto : string;
  StatusCode : Z;
  Response_Header : list (string * list string)
}.

Section MetaSize.

(** [http.StatusText], the table of net/http. *)
Variable http_StatusText : Z -> string.

(** The local [text] of [MetaSize]. *)
Definition statusText (r : Response) : string :=
  let text := http_StatusText (StatusCode r) in
  if String.eqb text "" then ("status code " ++ strconv_Itoa (StatusCode r))%string
  else text.

(** The inner and the outer loop over the header: [acc] is the pair of the
    locals [lines] and [size]. *)
Fixpoint rangeValues (key : string) (values : list string) (acc : Z * Z) : Z * Z :=
  match values with
  | [] => acc
  | value :: rest =>
      rangeValues key rest
        (int_add (fst acc) 1, int_add (snd acc) (int_add (len key) (len value)))
  end.

Fixpoint rangeHeader (h : list (string * list string)) (acc : Z * Z) : Z * Z :=
  match h with
  | [] => acc
  | (key, values) :: rest => rangeHeader rest (rangeValues key values acc)
  end.

Definition MetaSize (r : Response) : Z :=
  let text := statusText r in
  let size := int_add (len (Proto r)) 1 in
  let size :=
    if (100 <=? StatusCode r)%Z && (StatusCode r <? 1000)%Z
    then int_add size (int_add 3 1)
    else int_add size (int_add (len (strconv_Itoa (StatusCode r))) 1) in
  let size := int_add size (int_add (len text) 2) in
  let '(lines, size) := rangeHeader (Response_Header r) (0%Z, size) in
  let size := int_add size (int_mul lines 2) in
  if (1 <? lines)%Z then int_add size (int_mul (int_sub lines 1) 2) else size.

(** The text whose length the comment of [MetaSize] describes: status line,
    then the header lines [key: value], separated by CR LF. *)
Definition CRLF : string := String (ascii_of_nat 13) (String (ascii_of_nat 10) EmptyString).

Definition headerLines (h : list (string * list string)) : list string :=
  flat_map (fun kv => map (fun value => (fst kv ++ ": " ++ value)%string) (snd kv)) h.

(** The number of header lines, and the bytes of their keys and values. *)
Fixpoint valuesBytes (key : string) (values : list string) : Z :=
  match values with
  | [] => 0
  | value :: rest => len key + len value + valuesBytes key rest
  end.

Fixpoint headerBytes (h : list (string * list string)) : Z :=
  match h with
  | [] => 0
  | (key, values) :: rest => valuesBytes key values + headerBytes rest
  end.

Fixpoint headerCount (h : list (string * list string)) : Z :=
  match h with
  | [] => 0
  | (_, values) :: rest => Z.of_nat (List.length values) + headerCount rest
  end.

Definition metaText (r : Response) : string :=
  Proto r ++ " " ++ strconv_Itoa (StatusCode r) ++ " " ++ statusText r ++ CRLF
  ++ String.concat CRLF (headerLines (Response_Header r)).

End MetaSize.

(** ** src/plugins/http_server.go: the configuration of the HTTP server plugin *)

Record httpServerConfig := {
  conf_Host : string;
  conf_Port : Z;
  conf_CertFile : string;
  conf_KeyFile : string;
  ConnKeepAlive : bool;
  ConnKeepAliveSec : Z;
  MaxSimulConns : Z;
  certFilePath : string;
  keyFilePath : string;
  https : bool
}.

Definition httpServerConfigConstructor : httpServerConfig :=
  {| conf_Host := "localhost"; conf_Port := 10080; conf_CertFile := "";
     conf_KeyFile := ""; ConnKeepAlive := true; ConnKeepAliveSec := 10;
     MaxSimulConns := 1024; certFilePath := ""; keyFilePath := ""; https := false |}.

(** What [os.Stat] answers: a file, a directory, the error that
    [os.IsNotExist] recognises, or another error. *)
Inductive statResult : Type :=
| StatFile
| StatDir
| StatNotExist
| StatOtherError.

Section PluginConfig.

(** The result of [PluginCommonConfig.Prepare] (nil or an error),
    [strings.TrimSpace], [filepath.Join(common.CERT_HOME_DIR, _)] and
    [os.Stat]. *)
Variable commonPrepare : option string.
Variable strings_TrimSpace : string -> string.
Variable certHomeJoin : string -> string.
Variable os_Stat : string -> statResult.

(** [os.IsNotExist(err) || s.IsDir()]: on another error [s] is nil and the
    call of [IsDir] panics. *)
Definition missingOrDir (p : string) : exec bool :=
  match os_Stat p with
  | StatFile => Done false
  | StatDir => Done true
  | StatNotExist => Done true
  | StatOtherError => Panic
  end.

(** The last three checks of [Prepare]. *)
Definition checkNumbers (c : httpServerConfig) : option string :=
  if (conf_Port c =? 0)%Z then Some "invalid port"
  else if (ConnKeepAliveSec c =? 0)%Z then Some "invalid connection keep-alive period"
  else if (MaxSimulConns c =? 0)%Z
  then Some "invalid max simultaneous connection amount"
  else None.

(** [Prepare] returns an error or nil, and leaves the configuration as the
    second component says. *)
Definition Prepare (c : httpServerConfig) : exec (option string * httpServerConfig) :=
  match commonPrepare with
  | Some err => Done (Some err, c)
  | None =>
      let c := {| conf_Host := strings_TrimSpace (conf_Host c);
                  conf_Port := conf_Port c;
                  conf_CertFile := strings_TrimSpace (conf_CertFile c);
                  conf_KeyFile := strings_TrimSpace (conf_KeyFile c);
                  ConnKeepAlive := ConnKeepAlive c;
                  ConnKeepAliveSec := ConnKeepAliveSec c;
                  MaxSimulConns := MaxSimulConns c;
                  certFilePath := certFilePath c;
                  keyFilePath := keyFilePath c;
                  https := https c |} in
      if (String.length (conf_Host c) =? 0)%nat then Done (Some "invalid host", c)
      else if negb (String.length (conf_CertFile c) =? 0)%nat
              || negb (String.length (conf_KeyFile c) =? 0)%nat
      then
        let c := {| conf_Host := conf_Host c;
                    conf_Port := conf_Port c;
                    conf_CertFile := conf_CertFile c;
                    conf_KeyFile := conf_KeyFile c;
                    ConnKeepAlive := ConnKeepAlive c;
                    ConnKeepAliveSec := ConnKeepAliveSec c;
                    MaxSimulConns := MaxSimulConns c;
                    certFilePath := certHomeJoin (conf_CertFile c);
                    keyFilePath := certHomeJoin (conf_KeyFile c);
                    https := https c |} in
        match missingOrDir (certFilePath c) with
        | Panic => Panic
        | Done true =>
            Done (Some ("cert file " ++ conf_CertFile c ++ " not found")%string, c)
        | Done false =>
            match missingOrDir (keyFilePath c) with
            | Panic => Panic
            | Done true =>
                Done (Some ("key file " ++ conf_KeyFile c ++ " not found")%string, c)
            | Done false =>
                let c := {| conf_Host := conf_Host c;
                            conf_Port := conf_Port c;
                            conf_CertFile := conf_CertFile c;
                            conf_KeyFile := conf_KeyFile c;
                            ConnKeepAlive := ConnKeepAlive c;
                            ConnKeepAliveSec := ConnKeepAliveSec c;
                            MaxSimulConns := MaxSimulConns c;
                            certFilePath := certFilePath c;
                            keyFilePath := keyFilePath c;
                            https := true |} in
                Done (checkNumbers c, c)
            end
        end
      else Done (checkNumbers c, c)
  end.

End PluginConfig.

(** ** The earlier revision of the file: muxRules and its ServeHTTP

    The first part of mux.go routes with [muxRules]: the cache key is method
    and path, a cache item carries the chain of its path, and
    [handleRequestWithCache] asks that chain on every request.  The cache of
    that revision ([newCache], [get], [put]) and the request context are not
    among the sources: the cache is a parameter of the model, and the context
    is the request, its client address being [realip_FromRequest]. *)

Module V1.

Record Header := {
  Key : string;
  Values : list string;
  Regexp : string;
  headerRE : regexp_Regexp;
  Backend : string
}.

Record muxPath := {
  ipFilter : option IPFilter;
  ipFilterChain : option IPFilters;
  path : string;
  pathPrefix : string;
  pathRegexp : string;
  pathRE : option regexp_Regexp;
  methods : list string;
  backend : string;
  headers : list Header
}.

Record muxRule := {
  rule_ipFilter : option IPFilter;
  rule_ipFilterChain : option IPFilters;
  host : string;
  hostRegexp : string;
  hostRE : option regexp_Regexp;
  paths : list muxPath
}.

Record cacheItem := {
  ipFilterChan : option IPFilters;
  notFound : bool;
  methodNotAllowed : bool;
  item_backend : string;
  cached : bool
}.

(** What the request ends with: a status set on the response, the request
    handled by the handler of a backend (with or without the X-Forwarded-For
    stamp), or a response left as it was. *)
Inductive outcome : Type :=
| SetStatusCode (status : Z)
| Handle (backendName : string) (stamped : bool)
| Untouched.

Section Mux.

Context {E : Externals}.

(** The cache of the revision, with its [get] and [put]. *)
Variable Cache : Type.
Variable cache_get : Cache -> string -> option cacheItem.
Variable cache_put : Cache -> string -> cacheItem -> Cache.

(** [m.handlers.Load(backend)]: nothing, or whether the value stored is an
    [HTTPHandler]; and [m.spec.XForwardedFor]. *)
Variable handlers : string -> option bool.
Variable XForwardedFor : bool.

Record muxRules := {
  cache : option Cache;
  rules_ipFilter : option IPFilter;
  rules_ipFilterChan : option IPFilters;
  rules : list muxRule
}.

(** The three [pass] methods: [AllowHTTPContext] on a filter that is not
    nil. *)
Definition pass (f : option IPFilter) (ctx : Request) : bool :=
  match f with
  | None => true
  | Some f => filter_allows f (realip_FromRequest ctx)
  end.

Definition cacheKey (ctx : Request) : string := (Method ctx ++ URL_Path ctx)%string.

Definition getCacheItem (mr : muxRules) (ctx : Request) : option cacheItem :=
  match cache mr with
  | None => None
  | Some c => cache_get c (cacheKey ctx)
  end.

(** [putCacheItem]: the cache after the call. *)
Definition putCacheItem (mr : muxRules) (ctx : Request) (ci : cacheItem)
    : option Cache :=
  match cache mr with
  | None => None
  | Some c =>
      if negb (cached ci) then
        Some (cache_put c (cacheKey ctx)
                {| ipFilterChan := ipFilterChan ci; notFound := notFound ci;
                   methodNotAllowed := methodNotAllowed ci;
                   item_backend := item_backend ci; cached := true |})
      else Some c
  end.

Definition muxRule_match (mr : muxRule) (ctx : Request) : bool :=
  if String.eqb (host mr) "" && (match hostRE mr with None => true | Some _ => false end)
  then true
  else if negb (String.eqb (host mr) "") && String.eqb (host mr) (Host ctx) then true
  else match hostRE mr with
       | Some re => MatchString re (Host ctx)
       | None => false
       end.

Definition matchPath (mp : muxPath) (ctx : Request) : bool :=
  if String.eqb (path mp) "" && String.eqb (pathPrefix mp) ""
     && (match pathRE mp with None => true | Some _ => false end)
  then true
  else if negb (String.eqb (path mp) "") && String.eqb (path mp) (URL_Path ctx) then true
  else if negb (String.eqb (pathPrefix mp) "")
          && String.prefix (pathPrefix mp) (URL_Path ctx)
  then true
  else match pathRE mp with
       | Some re => MatchString re (URL_Path ctx)
       | None => false
       end.

Definition matchMethod (mp : muxPath) (ctx : Request) : bool :=
  if (List.length (methods mp) =? 0)%nat then true
  else StrInSlice (Method ctx) (methods mp).

(** [matchHeaders]: the item of the first header predicate the request
    meets, or nothing. *)
Fixpoint matchHeaders_loop (chain : option IPFilters) (hs : list Header) (ctx : Request)
    : option cacheItem :=
  match hs with
  | [] => None
  | h :: rest =>
      let v := Header_Get (Req_Header ctx) (Key h) in
      if StrInSlice v (Values h)
         || (negb (String.eqb (Regexp h) "") && MatchString (headerRE h) v)
      then Some {| ipFilterChan := chain; notFound := false; methodNotAllowed := false;
                   item_backend := Backend h; cached := false |}
      else matchHeaders_loop chain rest ctx
  end.

Definition matchHeaders (mp : muxPath) (ctx : Request) : option cacheItem :=
  matchHeaders_loop (ipFilterChain mp) (headers mp) ctx.

Definition handleRequestWithCache (ctx : Request) (ci : cacheItem) : outcome :=
  if match ipFilterChan ci with
     | Some chain => negb (IPFilters_Allow chain (realip_FromRequest ctx))
     | None => false
     end
  then SetStatusCode StatusForbidden
  else if notFound ci then SetStatusCode StatusNotFound
  else if methodNotAllowed ci then SetStatusCode StatusMethodNotAllowed
  else if negb (String.eqb (item_backend ci) "") then
    match handlers (item_backend ci) with
    | None => SetStatusCode StatusServiceUnavailable
    | Some false => SetStatusCode StatusServiceUnavailable
    | Some true => Handle (item_backend ci) XForwardedFor
    end
  else Untouched.

(** The statements of the path loop after [matchPath] has answered true:
    they all return. *)
Definition servePath (mr : muxRules) (ctx : Request) (p : muxPath)
    : outcome * option Cache :=
  if negb (matchMethod p ctx) then
    let ci := {| ipFilterChan := ipFilterChain p; notFound := false;
                 methodNotAllowed := true; item_backend := ""; cached := false |} in
    (handleRequestWithCache ctx ci, putCacheItem mr ctx ci)
  else if negb (pass (ipFilter p) ctx) then (SetStatusCode StatusForbidden, cache mr)
  else
    match matchHeaders p ctx with
    | Some ci => (handleRequestWithCache ctx ci, cache mr)
    | None =>
        let ci := {| ipFilterChan := ipFilterChain p; notFound := false;
                     methodNotAllowed := false; item_backend := backend p;
                     cached := false |} in
        (handleRequestWithCache ctx ci, putCacheItem mr ctx ci)
    end.

(** The loops return [None] when they go through all their items. *)
Fixpoint rangePaths (mr : muxRules) (ctx : Request) (ps : list muxPath)
    : option (outcome * option Cache) :=
  match ps with
  | [] => None
  | p :: rest =>
      if negb (matchPath p ctx) then rangePaths mr ctx rest
      else Some (servePath mr ctx p)
  end.

Fixpoint rangeRules (mr : muxRules) (ctx : Request) (hs : list muxRule)
    : option (outcome * option Cache) :=
  match hs with
  | [] => None
  | h :: rest =>
      if negb (muxRule_match h ctx) then rangeRules mr ctx rest
      else if negb (pass (rule_ipFilter h) ctx)
      then Some (SetStatusCode StatusForbidden, cache mr)
      else match rangePaths mr ctx (paths h) with
           | Some res => Some res
           | None => rangeRules mr ctx rest
           end
  end.

(** [ServeHTTP]: what happens to the request, and the cache after it. *)
Definition ServeHTTP (mr : muxRules) (ctx : Request) : outcome * option Cache :=
  match getCacheItem mr ctx with
  | Some ci => (handleRequestWithCache ctx ci, cache mr)
  | None =>
      if negb (pass (rules_ipFilter mr) ctx) then (SetStatusCode StatusForbidden, cache mr)
      else
        match rangeRules mr ctx (rules mr) with
        | Some res => res
        | None =>
            let ci := {| ipFilterChan := rules_ipFilterChan mr; notFound := true;
                         methodNotAllowed := false; item_backend := "";
                         cached := false |} in
            (handleRequestWithCache ctx ci, putCacheItem mr ctx ci)
        end
  end.

End Mux.

End V1.

(** A [muxRules] of the earlier revision, without cache: the rule
    [www.megaease.com] with the single path [/abc]. *)
Definition abcRulesV1 : V1.muxRules unit :=
  {| V1.cache := None; V1.rules_ipFilter := None; V1.rules_ipFilterChan := None;
     V1.rules :=
       [ {| V1.rule_ipFilter := None; V1.rule_ipFilterChain := None;
            V1.host := "www.megaease.com"; V1.hostRegexp := ""; V1.hostRE := None;
            V1.paths :=
              [ {| V1.ipFilter := None; V1.ipFilterChain := None; V1.path := "/abc";
                   V1.pathPrefix := ""; V1.pathRegexp := ""; V1.pathRE := None;
                   V1.methods := []; V1.backend := "abc-pipeline";
                   V1.headers := [] |} ] |} ] |}.

(** * Properties *)

(** ** The route cache *)

Lemma lookup_remove_key_same k l : lookup k (remove_key k l) = None.
Proof.
  induction l as [|[k' v] l IH]; simpl; auto.
  destruct (String.eqb k k') eqn:Hk; simpl; auto.
  now rewrite Hk.
Qed.

Lemma lookup_remove_key_other k k' l :
  k <> k' -> lookup k (remove_key k' l) = lookup k l.
Proof.
  intros Hne. induction l as [|[k0 v] l IH]; simpl; auto.
  destruct (String.eqb k' k0) eqn:H0.
  - apply String.eqb_eq in H0. subst k0.
    destruct (String.eqb k k') eqn:H1; auto.
    apply String.eqb_eq in H1. contradiction.
  - simpl. now rewrite IH.
Qed.

Lemma lookup_firstn k n l :
  lookup k (firstn n l) = None \/ lookup k (firstn n l) = lookup k l.
Proof.
  revert n. induction l as [|[k0 v] l IH]; intros [|n]; simpl; auto.
  destruct (String.eqb k k0); auto.
Qed.

Lemma stored_put_same mi req v c :
  cache mi = Some c -> stored (putRouteToCache mi req v) (cacheKey req) = Some v.
Proof.
  intros Hc. unfold putRouteToCache, stored. rewrite Hc. simpl.
  now rewrite String.eqb_refl.
Qed.

Lemma stored_put_inv mi req v k v' :
  stored (putRouteToCache mi req v) k = Some v' ->
  (k = cacheKey req /\ v' = v) \/ stored mi k = Some v'.
Proof.
  unfold putRouteToCache, stored.
  destruct (cache mi) as [c|] eqn:Hc; simpl; [|rewrite Hc; auto].
  destruct (String.eqb k (cacheKey req)) eqn:Hk.
  - apply String.eqb_eq in Hk. intros [= <-]. auto.
  - apply String.eqb_neq in Hk. intros H. right.
    destruct (lookup_firstn k (size c - 1) (remove_key (cacheKey req) (items c)))
      as [Hn|He]; [congruence|].
    rewrite He in H. now rewrite lookup_remove_key_other in H.
Qed.

Lemma getCacheRoute_stored mi req :
  fst (getCacheRoute mi req) = stored mi (cacheKey req).
Proof.
  unfold getCacheRoute, stored, ARCCache_Get.
  destruct (cache mi) as [c|]; auto.
  destruct (lookup (cacheKey req) (items c)); auto.
Qed.

Lemma getCacheRoute_keeps mi req k :
  stored (snd (getCacheRoute mi req)) k = stored mi k.
Proof.
  unfold getCacheRoute, stored, ARCCache_Get.
  destruct (cache mi) as [c|] eqn:Hc; simpl; [|now rewrite Hc].
  destruct (lookup (cacheKey req) (items c)) as [v|] eqn:Hl; simpl; auto.
  destruct (String.eqb k (cacheKey req)) eqn:Hk.
  - apply String.eqb_eq in Hk. now subst k.
  - apply String.eqb_neq in Hk. now apply lookup_remove_key_other.
Qed.

Lemma getCacheRoute_tree mi req :
  rules (snd (getCacheRoute mi req)) = rules mi
  /\ inst_ipFilter (snd (getCacheRoute mi req)) = inst_ipFilter mi.
Proof.
  unfold getCacheRoute. destruct (cache mi) as [c|]; auto.
  destruct (ARCCache_Get c (cacheKey req)); auto.
Qed.

Lemma In_remove_key k v k' l : In (k, v) (remove_key k' l) -> In (k, v) l.
Proof.
  induction l as [|[k0 v0] l IH]; simpl; auto.
  destruct (String.eqb k' k0); simpl; intuition.
Qed.

Lemma In_firstn (x : string * route) n l : In x (firstn n l) -> In x l.
Proof.
  revert n. induction l as [|y l IH]; intros [|n]; simpl; intuition eauto.
Qed.

Lemma lookup_In k v l : lookup k l = Some v -> In (k, v) l.
Proof.
  induction l as [|[k0 v0] l IH]; simpl; [discriminate|].
  destruct (String.eqb k k0) eqn:Hk; auto.
  apply String.eqb_eq in Hk. intros [= ->]. subst. auto.
Qed.

Lemma entries_put mi req v k v' :
  In (k, v') (entries (putRouteToCache mi req v)) ->
  (k = cacheKey req /\ v' = v) \/ In (k, v') (entries mi).
Proof.
  unfold putRouteToCache, entries.
  destruct (cache mi) as [c|] eqn:Hc; simpl; [|rewrite Hc; auto].
  intros [[= <- <-]|H]; auto.
  right. eapply In_remove_key, In_firstn, H.
Qed.

Lemma entries_get mi req k v :
  In (k, v) (entries (snd (getCacheRoute mi req))) -> In (k, v) (entries mi).
Proof.
  unfold getCacheRoute, entries, ARCCache_Get.
  destruct (cache mi) as [c|] eqn:Hc; simpl; [|now rewrite Hc].
  destruct (lookup (cacheKey req) (items c)) as [v0|] eqn:Hl; simpl; auto.
  intros [[= <- <-]|H].
  - now apply lookup_In.
  - eapply In_remove_key, H.
Qed.

Lemma cacheClean_put mi req v :
  cacheClean mi -> code v <> StatusBadRequest -> code v <> StatusForbidden ->
  cacheClean (putRouteToCache mi req v).
Proof.
  intros Hc H1 H2 k v' Hs.
  apply entries_put in Hs. destruct Hs as [[_ ->]|Hs]; auto.
  now apply (Hc k).
Qed.

Lemma cacheClean_get mi req : cacheClean mi -> cacheClean (snd (getCacheRoute mi req)).
Proof.
  intros Hc k v Hs. apply entries_get in Hs. now apply (Hc k).
Qed.

(** C10, as amended.  The cache key is the concatenation of host, method and
    URL path: when the keys of two requests differ, the probe for one request,
    after a put for the other, returns nothing or what it returned before the
    put; the stored verdict does not leak from one key to another. *)
Theorem cache_key_separation (mi : muxInstance) (r1 r2 : Request) (v : route) :
  cacheKey r1 <> cacheKey r2 ->
  fst (getCacheRoute (putRouteToCache mi r1 v) r2) = None
  \/ fst (getCacheRoute (putRouteToCache mi r1 v) r2) = fst (getCacheRoute mi r2).
Proof.
  intros Hne. rewrite !getCacheRoute_stored.
  destruct (stored (putRouteToCache mi r1 v) (cacheKey r2)) as [v'|] eqn:Hs; auto.
  right. apply stored_put_inv in Hs. destruct Hs as [[Hk _]|Hs]; [|now rewrite Hs].
  now elim Hne.
Qed.

Lemma cache_key_separation_witness :
  fst (getCacheRoute
         (putRouteToCache (reload (E := simpleExternals Panic) (abcSpec 100))
            abcRequest notFound)
         (get "www.megaease.cn" "/abc" [])) = None
  \/ fst (getCacheRoute
            (putRouteToCache (reload (E := simpleExternals Panic) (abcSpec 100))
               abcRequest notFound)
            (get "www.megaease.cn" "/abc" []))
     = fst (getCacheRoute (reload (E := simpleExternals Panic) (abcSpec 100))
              (get "www.megaease.cn" "/abc" [])).
Proof.
  apply (@cache_key_separation
           (reload (E := simpleExternals Panic) (abcSpec 100))
           abcRequest (get "www.megaease.cn" "/abc" []) notFound).
  vm_compute. discriminate.
Defined.

(** C10, counterexample.  Two requests that differ in host and in method, with
    the same concatenation: the verdict put for the first is what the probe
    for the second returns. *)
Lemma cache_key_collision :
  (Host (get "example.com" "/a" []), Method (get "example.com" "/a" []),
   URL_Path (get "example.com" "/a" []))
  <> ("example.comG", "ET", "/a")
  /\ fst (getCacheRoute
            (putRouteToCache (reload (E := simpleExternals Panic) (abcSpec 100))
               (get "example.com" "/a" []) notFound)
            {| Host := "example.comG"; Method := "ET"; URL_Path := "/a";
               Req_Header := []; RemoteAddr := "10.0.0.1:4711";
               ContentLength := 0; Body := Some "" |})
     = Some notFound.
Proof.
  split; [discriminate | reflexivity].
Qed.

(** ** newIPFilterChain *)

Ltac chain_case :=
  repeat split; intros;
  repeat match goal with
    | H : Some _ = Some _ |- _ => injection H as H; subst
    | H : _ /\ _ |- _ => destruct H
    | H : _ ++ [_] = [] |- _ => apply app_eq_nil in H; destruct H
    end;
  simpl in *; try discriminate; try congruence; auto.

(** C8.  The chain built is the parent's filters followed by the filter of the
    child spec when there is one; the result is nil exactly when that list is
    empty, that is when the parent is nil or empty and there is no child. *)
Theorem newIPFilterChain_concat (parent : option IPFilters)
    (child : option ipfilter_Spec) :
  (forall c, newIPFilterChain parent child = Some c ->
             Filters c = chainFilters parent ++ childFilters child)
  /\ (newIPFilterChain parent child = None <->
      chainFilters parent ++ childFilters child = [])
  /\ (newIPFilterChain parent child = None <->
      chainFilters parent = [] /\ child = None)
  /\ (parent = None -> child = None -> newIPFilterChain parent child = None).
Proof.
  unfold newIPFilterChain, Append.
  destruct parent as [[fs]|], child as [s|]; simpl.
  - rewrite length_app, Nat.add_comm. simpl. chain_case.
  - rewrite app_nil_r. destruct fs as [|f fs]; simpl; chain_case.
  - chain_case.
  - chain_case.
Qed.

(** ** The scan of rules and paths *)

Section Scan.

Context {E : Externals}.
Variables (req : Request) (ip : string).

Lemma put_tree mi v :
  rules (putRouteToCache mi req v) = rules mi
  /\ inst_ipFilter (putRouteToCache mi req v) = inst_ipFilter mi
  /\ (cache (putRouteToCache mi req v) = None <-> cache mi = None).
Proof.
  unfold putRouteToCache. destruct (cache mi) eqn:Hc; simpl; repeat split; auto;
    try discriminate; congruence.
Qed.

(** A turn of the path loop that goes on has raised the flags as the path
    asks: the header flag when path and method match and the header check
    fails, the method flag when the path matches and the method does not. *)
Lemma visitPath_Continue p l mi l' mi' :
  visitPath req ip p l mi = Continue l' mi' ->
  headerMismatch l' =
    headerMismatch l || (matchPath p req && matchMethod p req && negb (matchHeaders p req))
  /\ methodMismatch l' =
    methodMismatch l || (matchPath p req && negb (matchMethod p req)).
Proof.
  unfold visitPath.
  destruct (matchPath p req), (matchMethod p req), (length (headers p) =? 0)%nat,
    (matchHeaders p req), (allowIP (path_ipFilter p) ip); simpl;
    intros H; inversion H; subst; simpl;
    rewrite ?orb_false_r, ?orb_true_r; auto.
Qed.

Lemma rangePaths_Continue ps : forall l mi l' mi',
  rangePaths req ip ps l mi = Continue l' mi' ->
  headerMismatch l' =
    headerMismatch l
    || existsb (fun p => matchPath p req && matchMethod p req && negb (matchHeaders p req)) ps
  /\ methodMismatch l' =
    methodMismatch l || existsb (fun p => matchPath p req && negb (matchMethod p req)) ps.
Proof.
  induction ps as [|p ps IH]; simpl; intros l mi l' mi' H.
  - inversion H; subst. now rewrite !orb_false_r.
  - destruct (visitPath req ip p l mi) as [l1 mi1| |] eqn:Hv; try discriminate.
    apply visitPath_Continue in Hv. destruct Hv as [Hh Hm].
    apply IH in H. destruct H as [Hh' Hm'].
    rewrite Hh', Hm', Hh, Hm, !orb_assoc. auto.
Qed.

Lemma rangeRules_Continue hs : forall l mi l' mi',
  rangeRules req ip hs l mi = Continue l' mi' ->
  headerMismatch l' = headerMismatch l || failsHeaders hs req
  /\ methodMismatch l' = methodMismatch l || failsMethod hs req.
Proof.
  induction hs as [|h hs IH]; simpl; intros l mi l' mi' H.
  - inversion H; subst. now rewrite !orb_false_r.
  - destruct (visitRule req ip h l mi) as [l1 mi1| |] eqn:Hv; try discriminate.
    apply IH in H. destruct H as [Hh' Hm']. rewrite Hh', Hm', !orb_assoc.
    unfold visitRule in Hv. destruct (muxRule_match h req); simpl in *.
    + destruct (IPFilter_Allow (rule_ipFilter h) ip) as [[|]|]; try discriminate.
      apply rangePaths_Continue in Hv. destruct Hv as [-> ->]. auto.
    + inversion Hv; subst. now rewrite !orb_false_r.
Qed.

(** The cache never receives a BadRequest or a Forbidden verdict from the
    scan, however a turn ends. *)
Lemma visitPath_clean p l mi :
  cacheClean mi -> cacheClean (flowInstance (visitPath req ip p l mi)).
Proof.
  intros Hc. unfold visitPath.
  assert (Hput : cacheClean (putRouteToCache mi req (okRoute p)))
    by (apply cacheClean_put; auto; discriminate).
  destruct (matchPath p req), (matchMethod p req), (length (headers p) =? 0)%nat,
    (matchHeaders p req), (allowIP (path_ipFilter p) ip); simpl; auto.
Qed.

Lemma rangePaths_clean ps : forall l mi,
  cacheClean mi -> cacheClean (flowInstance (rangePaths req ip ps l mi)).
Proof.
  induction ps as [|p ps IH]; simpl; intros l mi Hc; auto.
  pose proof (visitPath_clean p l Hc) as Hv.
  destruct (visitPath req ip p l mi); simpl in *; auto.
Qed.

Lemma rangeRules_clean hs : forall l mi,
  cacheClean mi -> cacheClean (flowInstance (rangeRules req ip hs l mi)).
Proof.
  induction hs as [|h hs IH]; simpl; intros l mi Hc; auto.
  assert (Hv : cacheClean (flowInstance (visitRule req ip h l mi))).
  { unfold visitRule. destruct (muxRule_match h req); simpl; auto.
    destruct (IPFilter_Allow (rule_ipFilter h) ip) as [[|]|]; simpl; auto.
    now apply rangePaths_clean. }
  destruct (visitRule req ip h l mi); simpl in *; auto.
Qed.

(** The scan leaves the cache enabled or disabled as it found it. *)
Lemma rangePaths_cache ps : forall l mi,
  cache (flowInstance (rangePaths req ip ps l mi)) = None <-> cache mi = None.
Proof.
  induction ps as [|p ps IH]; simpl; intros l mi; [tauto|].
  assert (Hv : cache (flowInstance (visitPath req ip p l mi)) = None <-> cache mi = None).
  { unfold visitPath.
    pose proof (put_tree mi (okRoute p)) as (_ & _ & Hp).
    destruct (matchPath p req), (matchMethod p req), (length (headers p) =? 0)%nat,
      (matchHeaders p req), (allowIP (path_ipFilter p) ip); simpl; tauto. }
  destruct (visitPath req ip p l mi) as [l1 mi1| |]; simpl in *; auto.
  rewrite IH. auto.
Qed.

Lemma rangeRules_cache hs : forall l mi,
  cache (flowInstance (rangeRules req ip hs l mi)) = None <-> cache mi = None.
Proof.
  induction hs as [|h hs IH]; simpl; intros l mi; [tauto|].
  assert (Hv : cache (flowInstance (visitRule req ip h l mi)) = None <-> cache mi = None).
  { unfold visitRule. destruct (muxRule_match h req); simpl; [|tauto].
    destruct (IPFilter_Allow (rule_ipFilter h) ip) as [[|]|]; simpl; try tauto.
    apply rangePaths_cache. }
  destruct (visitRule req ip h l mi) as [l1 mi1| |]; simpl in *; auto.
  rewrite IH. auto.
Qed.

End Scan.

(** ** search *)

Section Search.

Context {E : Externals}.

Lemma search_clean mi req : cacheClean mi -> cacheClean (snd (search mi req)).
Proof.
  intros Hc. unfold search.
  pose proof (cacheClean_get req Hc) as Hg.
  destruct (getCacheRoute mi req) as [[r0|] mi0]; simpl in *; auto.
  destruct (allowIP (inst_ipFilter mi0) (realip_FromRequest req)); simpl; auto.
  pose proof (rangeRules_clean req (realip_FromRequest req) (rules mi0) initLocals Hg) as Hr.
  destruct (rangeRules req (realip_FromRequest req) (rules mi0) initLocals mi0)
    as [l mi1|v mi1|mi1]; simpl in *; auto.
  unfold fallbacks.
  destruct (headerMismatch l); simpl; auto.
  destruct (methodMismatch l); simpl; apply cacheClean_put; auto; discriminate.
Qed.

Lemma reload_clean spec : cacheClean (reload spec).
Proof.
  intros k v. unfold entries, reload, lru_NewARC. simpl.
  destruct (0 <? CacheSize spec)%N; simpl; tauto.
Qed.

Lemma searches_clean reqs : forall mi, cacheClean mi -> cacheClean (searches mi reqs).
Proof.
  induction reqs as [|req reqs IH]; simpl; intros mi Hc; auto.
  apply IH. now apply search_clean.
Qed.

(** A cache miss whose scan goes through every rule ends in the fallbacks,
    with the flags the visited paths have raised. *)
Lemma search_after_scan (mi mi0 mi1 : muxInstance) (req : Request) (l : locals) :
  getCacheRoute mi req = (None, mi0) ->
  allowIP (inst_ipFilter mi) (realip_FromRequest req) = true ->
  rangeRules req (realip_FromRequest req) (rules mi) initLocals mi0 = Continue l mi1 ->
  search mi req = fallbacks req l mi1
  /\ headerMismatch l = failsHeaders (rules mi) req
  /\ methodMismatch l = failsMethod (rules mi) req
  /\ (cache mi <> None -> cache mi1 <> None).
Proof.
  intros Hg Hip Hscan.
  pose proof (getCacheRoute_tree mi req) as [Hrules Hfilter].
  rewrite Hg in Hrules, Hfilter. simpl in Hrules, Hfilter.
  pose proof (rangeRules_Continue _ _ _ _ _ Hscan) as [Hh Hm]. simpl in Hh, Hm.
  repeat split; auto.
  - unfold search. rewrite Hg, Hfilter, Hip, Hrules. simpl. now rewrite Hscan.
  - intros Hc Hn.
    pose proof (rangeRules_cache req (realip_FromRequest req) (rules mi) initLocals mi0) as Hk.
    rewrite Hscan in Hk. simpl in Hk. apply Hk in Hn.
    unfold getCacheRoute in Hg. destruct (cache mi) as [c|]; [|congruence].
    destruct (ARCCache_Get c (cacheKey req)). inversion Hg; subst. discriminate.
Qed.

(** C5.  When the scan of a cache miss selects no path: BadRequest if a path
    matching by path and method failed the header check, and the cache is left
    as the scan left it; else MethodNotAllowed if a path failed the method
    check, stored under the key of the request; else NotFound, stored as well.
    No call of search, along any sequence of calls on a compiled instance,
    leaves a BadRequest or a Forbidden verdict in the cache. *)
Theorem search_fallback_verdicts (mi mi0 mi1 : muxInstance) (req : Request) (l : locals) :
  getCacheRoute mi req = (None, mi0) ->
  allowIP (inst_ipFilter mi) (realip_FromRequest req) = true ->
  rangeRules req (realip_FromRequest req) (rules mi) initLocals mi0 = Continue l mi1 ->
  (failsHeaders (rules mi) req = true ->
     search mi req = (Done (Some badRequest), mi1))
  /\ (failsHeaders (rules mi) req = false -> failsMethod (rules mi) req = true ->
        search mi req
          = (Done (Some methodNotAllowed), putRouteToCache mi1 req methodNotAllowed)
        /\ (cache mi <> None ->
            stored (snd (search mi req)) (cacheKey req) = Some methodNotAllowed))
  /\ (failsHeaders (rules mi) req = false -> failsMethod (rules mi) req = false ->
        search mi req = (Done (Some notFound), putRouteToCache mi1 req notFound)
        /\ (cache mi <> None ->
            stored (snd (search mi req)) (cacheKey req) = Some notFound))
  /\ (cacheClean mi -> cacheClean (snd (search mi req)))
  /\ (forall spec reqs, cacheClean (searches (reload spec) reqs)).
Proof.
  intros Hg Hip Hscan.
  destruct (search_after_scan mi req Hg Hip Hscan) as (Hsearch & Hh & Hm & Hon).
  split; [|split; [|split; [|split]]].
  - rewrite Hsearch. unfold fallbacks. rewrite Hh. now intros ->.
  - rewrite Hsearch. unfold fallbacks. rewrite Hh, Hm.
    intros -> ->. split; auto. intros Hc. simpl.
    apply Hon in Hc. destruct (cache mi1) as [c|] eqn:Hc1; [|congruence].
    now apply stored_put_same with (c := c).
  - rewrite Hsearch. unfold fallbacks. rewrite Hh, Hm.
    intros -> ->. split; auto. intros Hc. simpl.
    apply Hon in Hc. destruct (cache mi1) as [c|] eqn:Hc1; [|congruence].
    now apply stored_put_same with (c := c).
  - apply search_clean.
  - intros spec reqs. apply searches_clean, reload_clean.
Qed.

End Search.

Lemma search_fallback_verdicts_witness :
  fst (search (E := simpleExternals Panic) (reload (E := simpleExternals Panic) testSpec)
         (get "www.megaease.com" "/xyz" (from "192.168.1.4")))
  = Done (Some methodNotAllowed).
Proof.
  pose (E := simpleExternals Panic).
  pose (mi := reload testSpec).
  pose (req := get "www.megaease.com" "/xyz" (from "192.168.1.4")).
  assert (Hg : getCacheRoute mi req = (None, mi)) by (vm_compute; reflexivity).
  assert (Hip : allowIP (inst_ipFilter mi) (realip_FromRequest req) = true)
    by (vm_compute; reflexivity).
  assert (Hscan : rangeRules req (realip_FromRequest req) (rules mi) initLocals mi
                  = Continue {| r := None; headerMismatch := false; methodMismatch := true |} mi)
    by (vm_compute; reflexivity).
  destruct (search_fallback_verdicts mi req Hg Hip Hscan) as (_ & H & _).
  assert (Hh : failsHeaders (rules mi) req = false) by (vm_compute; reflexivity).
  assert (Hm : failsMethod (rules mi) req = true) by (vm_compute; reflexivity).
  destruct (H Hh Hm) as [Hs _].
  exact (f_equal fst Hs).
Defined.

(** ** Header predicates *)

Section Headers.

Context {E : Externals}.

Lemma matchHeaders_loop_existsb hs req :
  matchHeaders_loop hs req = existsb (fun h => headerMatches h req) hs.
Proof.
  induction hs as [|h hs IH]; simpl; auto.
  rewrite IH. now destruct (headerMatches h req).
Qed.

Lemma failsHeaders_intro hs req h p :
  In h hs -> muxRule_match h req = true -> In p (paths h) ->
  matchPath p req = true -> matchMethod p req = true -> matchHeaders p req = false ->
  failsHeaders hs req = true.
Proof.
  intros Hh Hm Hp H1 H2 H3. unfold failsHeaders.
  apply existsb_exists. exists h. split; auto.
  rewrite Hm. simpl. apply existsb_exists. exists p. split; auto.
  now rewrite H1, H2, H3.
Qed.

(** The header check as the code has it: it passes exactly when one of the
    predicates of the path accepts the request.  When none does, on a request
    matching the host, the path and the method, a scan that selects no path
    ends in BadRequest, not in MethodNotAllowed. *)
Lemma matchHeaders_any_one (mi mi0 mi1 : muxInstance) (req : Request) (l : locals)
    (h : muxRule) (chain : option IPFilters) (P : Path) :
  getCacheRoute mi req = (None, mi0) ->
  allowIP (inst_ipFilter mi) (realip_FromRequest req) = true ->
  rangeRules req (realip_FromRequest req) (rules mi) initLocals mi0 = Continue l mi1 ->
  In h (rules mi) -> muxRule_match h req = true ->
  In (newMuxPath chain P) (paths h) ->
  matchPath (newMuxPath chain P) req = true ->
  matchMethod (newMuxPath chain P) req = true ->
  (matchHeaders (newMuxPath chain P) req
   = existsb (fun hd => headerMatches hd req) (Path_Headers P))
  /\ (existsb (fun hd => headerMatches hd req) (Path_Headers P) = false ->
      search mi req = (Done (Some badRequest), mi1)
      /\ fst (search mi req) <> Done (Some methodNotAllowed)).
Proof.
  intros Hg Hip Hscan Hh Hm Hp H1 H2.
  assert (Hany : matchHeaders (newMuxPath chain P) req
                 = existsb (fun hd => headerMatches hd req) (Path_Headers P))
    by apply matchHeaders_loop_existsb.
  split; auto.
  intros Hnone. rewrite <- Hany in Hnone.
  destruct (search_after_scan mi req Hg Hip Hscan) as (Hsearch & Hflag & _).
  rewrite Hsearch. unfold fallbacks.
  rewrite Hflag, (failsHeaders_intro _ _ _ _ Hh Hm Hp H1 H2 Hnone).
  split; auto. simpl. discriminate.
Qed.

End Headers.

Lemma matchHeaders_any_one_witness :
  search (E := simpleExternals Panic) (reload (E := simpleExternals Panic) testSpec)
    (get "www.megaease.com" "/123" (from "192.168.1.4"))
  = (Done (Some badRequest), reload (E := simpleExternals Panic) testSpec).
Proof.
  pose (E := simpleExternals Panic).
  pose (mi := reload testSpec).
  pose (req := get "www.megaease.com" "/123" (from "192.168.1.4")).
  pose (chain := newIPFilterChain (inst_ipFilterChan mi) (blockOnly ["192.168.1.2"])).
  assert (Hg : getCacheRoute mi req = (None, mi)) by (vm_compute; reflexivity).
  assert (Hip : allowIP (inst_ipFilter mi) (realip_FromRequest req) = true)
    by (vm_compute; reflexivity).
  assert (Hscan : rangeRules req (realip_FromRequest req) (rules mi) initLocals mi
                  = Continue {| r := None; headerMismatch := true; methodMismatch := false |} mi)
    by (vm_compute; reflexivity).
  assert (Hh : In (newMuxRule (inst_ipFilterChan mi)
                     {| Rule_IPFilter := blockOnly ["192.168.1.2"];
                        Rule_Host := "www.megaease.com"; Rule_HostRegexp := "";
                        Rule_Paths := [abcPath; xyzPath; path123; headerAllMatch2] |}
                     (map (newMuxPath chain) [abcPath; xyzPath; path123; headerAllMatch2]))
                  (rules mi)) by (left; reflexivity).
  assert (Hp : In (newMuxPath chain path123)
                  (map (newMuxPath chain) [abcPath; xyzPath; path123; headerAllMatch2]))
    by (right; right; left; reflexivity).
  destruct (@matchHeaders_any_one E mi mi mi req _ _ chain path123
              Hg Hip Hscan Hh eq_refl Hp eq_refl eq_refl) as [_ H].
  exact (proj1 (H eq_refl)).
Defined.

(** C7, on the code.  The path [/headerAllMatch2] of the search test asks for
    all of its two header predicates; the request of the test satisfies the
    first ([X-Test: test1]) and not the second ([AllMatch: false]).  The
    header check of the compiled path passes all the same, the path passes
    every check, and search returns the nil route of its [return r], not
    BadRequest, whatever [Allow] does on a nil filter. *)
Theorem matchHeaders_ignores_match_all (nilAllow : exec bool) :
  let E := simpleExternals nilAllow in
  let req := get "www.megaease.com" "/headerAllMatch2"
               [("X-Test", ["test1"]); ("Allmatch", ["false"])] in
  MatchAllHeader headerAllMatch2 = true
  /\ headerMatches xTest req = true
  /\ headerMatches allMatch req = false
  /\ matchHeaders (newMuxPath None headerAllMatch2) req = true
  /\ fst (search (reload testSpec) req) = Done None
  /\ fst (search (reload testSpec) req) <> Done (Some badRequest).
Proof.
  destruct nilAllow as [[|]|]; repeat split; try reflexivity; vm_compute; discriminate.
Qed.

(** ** The rewrite step of serveHTTP *)

Section Rewrite.

Context {E : Externals}.

(** The rewrite step as the code has it.  When search answers OK with path
    [p], the backend has a handler and the request wraps, the URL path handed
    over is the regex substitution when [p] has a compiled expression and a
    nonempty rewrite target, and the request's own path in every other case.
    A path compiled from a spec without path_regexp has no compiled
    expression. *)
Lemma serveHTTP_rewrite (GetHandler : string -> bool) (mi mi' : muxInstance)
    (req : Request) (rt : route) (p : MuxPath) :
  search mi req = (Done (Some rt), mi') ->
  code rt = StatusOK -> route_path rt = Some p ->
  GetHandler (backend p) = true -> wrapRequest_fails req = false ->
  serveHTTP GetHandler mi req
  = (Done (Handle (backend p)
             match pathRE p with
             | Some re =>
                 if String.eqb (rewriteTarget p) "" then URL_Path req
                 else ReplaceAllString re (URL_Path req) (rewriteTarget p)
             | None => URL_Path req
             end), mi')
  /\ (pathRE p = None ->
      serveHTTP GetHandler mi req = (Done (Handle (backend p) (URL_Path req)), mi'))
  /\ (forall chain P, Path_PathRegexp P = "" -> pathRE (newMuxPath chain P) = None).
Proof.
  intros Hs Hc Hp Hh Hw.
  assert (Hserve : serveHTTP GetHandler mi req
                   = (Done (Handle (backend p) (rewrite p (URL_Path req))), mi')).
  { unfold serveHTTP. rewrite Hs, Hc, Hp, Hh, Hw. reflexivity. }
  rewrite Hserve. unfold rewrite. repeat split.
  - destruct (pathRE p); auto. now destruct (String.eqb (rewriteTarget p) "").
  - now intros ->.
  - intros chain P HP. unfold newMuxPath. simpl. now rewrite HP.
Qed.

End Rewrite.

Lemma serveHTTP_rewrite_witness :
  serveHTTP (E := simpleExternals Panic) (fun _ => true)
    (snd (search (E := simpleExternals Panic)
            (reload (E := simpleExternals Panic) rewriteSpec)
            (get "www.megaease.com" "/abc" (from "192.168.1.4"))))
    (get "www.megaease.com" "/abc" (from "192.168.1.4"))
  = (Done (Handle "abc-pipeline" "/abc"),
     snd (search (E := simpleExternals Panic)
            (reload (E := simpleExternals Panic) rewriteSpec)
            (get "www.megaease.com" "/abc" (from "192.168.1.4")))).
Proof.
  pose (E := simpleExternals Panic).
  pose (req := get "www.megaease.com" "/abc" (from "192.168.1.4")).
  pose (mi := snd (search (reload rewriteSpec) req)).
  pose (p := newMuxPath (newIPFilterChain None (blockOnly ["192.168.1.2"]))
               {| Path_IPFilter := blockOnly ["192.168.1.3"]; Path_Path := "/abc";
                  Path_PathPrefix := ""; Path_PathRegexp := "";
                  Path_RewriteTarget := "/newabc"; Path_Methods := [];
                  Path_Backend := "abc-pipeline"; Path_Headers := [];
                  MatchAllHeader := false |}).
  assert (Hs : search mi req = (Done (Some (okRoute p)), mi)) by (vm_compute; reflexivity).
  destruct (@serveHTTP_rewrite E (fun _ => true) mi mi req (okRoute p) p
              Hs eq_refl eq_refl eq_refl eq_refl) as (_ & H & _).
  exact (H eq_refl).
Defined.

(** C9, on the code.  The rewrite step leaves the URL path as it is for the
    two paths of the path test that have a rewrite target and no expression:
    [/abc] under the literal path [/abc] with target [/xyz], and [/xyz] under
    the prefix [/xy] with target [/ab].  Through serveHTTP: the path [/abc]
    of the dispatcher test has the rewrite target [/newabc]; the second
    request for it is answered OK from the cache and handed to the backend
    with its path still [/abc]. *)
Theorem serveHTTP_literal_not_rewritten (nilAllow : exec bool) :
  let E := simpleExternals nilAllow in
  let req := get "www.megaease.com" "/abc" (from "192.168.1.4") in
  matchPath (newMuxPath None rewriteExact) req = true
  /\ rewrite (newMuxPath None rewriteExact) "/abc" = "/abc"
  /\ matchPath (newMuxPath None rewritePrefix)
       (get "www.megaease.com" "/xyz" (from "192.168.1.4")) = true
  /\ rewrite (newMuxPath None rewritePrefix) "/xyz" = "/xyz"
  /\ fst (serveHTTP (fun _ => true) (snd (search (reload rewriteSpec) req)) req)
     = Done (Handle "abc-pipeline" "/abc").
Proof.
  destruct nilAllow as [[|]|]; repeat split; vm_compute; reflexivity.
Qed.

(** ** What search does with a path that has no header predicates *)

Section Headerless.

Context {E : Externals}.

(** The loop of [matchHeaders] over no predicate answers false: a path
    without header predicates that matches by path and method is put in the
    cache and then passed over, with the header flag raised. *)
Lemma visitPath_headerless req ip p l mi :
  headers p = [] -> matchPath p req = true -> matchMethod p req = true ->
  visitPath req ip p l mi
  = Continue {| r := Some (okRoute p); headerMismatch := true;
                methodMismatch := methodMismatch l |}
             (putRouteToCache mi req (okRoute p)).
Proof.
  intros Hh Hp Hm. unfold visitPath, matchHeaders. rewrite Hp, Hm, Hh. reflexivity.
Qed.

End Headerless.

(** C1, on the code.  For the spec of the scenario (rule [www.megaease.com],
    single path [/abc] to [abc-pipeline], nothing else) and the request
    [GET www.megaease.com:8080/abc], the first call of search does not answer
    OK: the rule has no filter of its own, so [Allow] is called on a nil
    filter; if that call returns true the path is cached and passed over and
    the answer is BadRequest, if it returns false the answer is Forbidden,
    and otherwise the call panics. *)
Theorem search_abc_first_call (nilAllow : exec bool) (n : N) :
  fst (search (E := simpleExternals nilAllow)
         (reload (E := simpleExternals nilAllow) (abcSpec n)) abcRequest)
  = match nilAllow with
    | Done true => Done (Some badRequest)
    | Done false => Done (Some forbidden)
    | Panic => Panic
    end.
Proof.
  destruct n as [|k], nilAllow as [[|]|]; reflexivity.
Qed.

(** C2, on the code.  With the cache enabled, two consecutive calls of search
    for [/abc], a path without header predicates: the first answers
    BadRequest and leaves the OK route in the cache; the second finds it
    there and answers OK.  The two verdicts differ. *)
Theorem search_abc_twice (nilAllow : exec bool) :
  let E := simpleExternals nilAllow in
  let req := get "www.megaease.com" "/abc" (from "192.168.1.4") in
  let abc := newMuxPath (newIPFilterChain (newIPFilterChain None (blockOnly ["192.168.1.1"]))
                           (blockOnly ["192.168.1.2"])) abcPath in
  let first := search (reload testSpec) req in
  let second := search (snd first) req in
  fst first = Done (Some badRequest)
  /\ fst (getCacheRoute (snd first) req) = Some (okRoute abc)
  /\ fst second = Done (Some (okRoute abc))
  /\ fst first <> fst second.
Proof.
  destruct nilAllow as [[|]|]; (repeat split; [vm_compute; discriminate]).
Qed.

(** C3, on the code.  The cache holds the OK route of [/abc], whose chain is
    server filter, rule filter, path filter.  A request from 192.168.1.1, which
    the server filter blocks, hits the cache: the chain denies the address,
    and search answers OK with the route, because it asks the path's own
    filter only. *)
Theorem search_cache_hit_own_filter (nilAllow : exec bool) :
  let E := simpleExternals nilAllow in
  let abc := newMuxPath (newIPFilterChain (newIPFilterChain None (blockOnly ["192.168.1.1"]))
                           (blockOnly ["192.168.1.2"])) abcPath in
  let mi := snd (search (reload testSpec)
                   (get "www.megaease.com" "/abc" (from "192.168.1.4"))) in
  let req := get "www.megaease.com" "/abc" (from "192.168.1.1") in
  fst (getCacheRoute mi req) = Some (okRoute abc)
  /\ option_map (fun chain => IPFilters_Allow chain (realip_FromRequest req))
       (path_ipFilterChain abc) = Some false
  /\ fst (search mi req) = Done (Some (okRoute abc)).
Proof.
  destruct nilAllow as [[|]|]; repeat split.
Qed.

(** C4, on the code.  The path [/123] has a header predicate, which the
    request satisfies, and no sibling without header predicates precedes it:
    search returns a nil route, and serveHTTP dereferences it. *)
Theorem serveHTTP_nil_route (nilAllow : exec bool) (GetHandler : string -> bool) :
  let E := simpleExternals nilAllow in
  let req := get "www.megaease.com" "/123"
               [("X-Real-Ip", ["192.168.1.4"]); ("X-Test", ["test1"])] in
  fst (search (reload testSpec) req) = Done None
  /\ fst (serveHTTP GetHandler (reload testSpec) req) = Panic.
Proof.
  destruct nilAllow as [[|]|]; split; reflexivity.
Qed.

(** C6, on the code.  Of two siblings on [/a], the first has no header
    predicate and a filter that blocks 192.168.1.3, the second a header
    predicate and no filter.  For a request from 192.168.1.3 that satisfies
    the header predicate all checks of the second sibling pass, and search
    answers OK with the first, whose filter denies the client. *)
Theorem search_answers_earlier_sibling (nilAllow : exec bool) :
  let E := simpleExternals nilAllow in
  let chain := newIPFilterChain None (blockOnly ["192.168.1.2"]) in
  let req := get "www.megaease.com" "/a"
               [("X-Real-Ip", ["192.168.1.3"]); ("X-Test", ["test1"])] in
  let ip := realip_FromRequest req in
  let p1 := newMuxPath chain firstSibling in
  let p2 := newMuxPath chain secondSibling in
  fst (search (reload siblingSpec) req) = Done (Some (okRoute p1))
  /\ allowIP (path_ipFilter p1) ip = false
  /\ matchPath p2 req && matchMethod p2 req && matchHeaders p2 req
     && allowIP (path_ipFilter p2) ip = true
  /\ p1 <> p2.
Proof.
  destruct nilAllow as [[|]|]; (repeat split; [vm_compute; discriminate]).
Qed.

(** ** The cache-hit branch, as written *)

Section CacheHit.

Context {E : Externals}.

(** A stored terminal verdict is returned unchanged, a stored route whose
    path has no chain is returned without any check, and a stored route whose
    path has a chain and a filter of its own is returned when that own filter
    allows the address, Forbidden being returned otherwise. *)
Lemma cacheHit_cases rt ip :
  (code rt <> StatusOK -> cacheHit rt ip = Done (Some rt))
  /\ (forall p, code rt = StatusOK -> route_path rt = Some p ->
        path_ipFilterChain p = None -> cacheHit rt ip = Done (Some rt))
  /\ (forall p c f, code rt = StatusOK -> route_path rt = Some p ->
        path_ipFilterChain p = Some c -> path_ipFilter p = Some f ->
        cacheHit rt ip = Done (Some (if filter_allows f ip then rt else forbidden))).
Proof.
  unfold cacheHit. repeat split.
  - intros Hc. apply Z.eqb_neq in Hc. now rewrite Hc.
  - intros p -> -> ->. reflexivity.
  - intros p c f -> -> -> ->. simpl. now destruct (filter_allows f ip).
Qed.

End CacheHit.

(** * Further properties of the mux *)

(** ** Compilation: reload, newMuxRule, newMuxPath *)

Section Compilation.

Context {E : Externals}.

Lemma chainFilters_newIPFilterChain parent child :
  chainFilters (newIPFilterChain parent child) = chainFilters parent ++ childFilters child.
Proof.
  unfold newIPFilterChain, Append.
  destruct parent as [[fs]|], child as [s|]; simpl; auto.
  - rewrite length_app, Nat.add_comm. reflexivity.
  - rewrite app_nil_r. now destruct fs.
Qed.

Lemma ownFilters_newIPFilter s : ownFilters (newIPFilter s) = childFilters s.
Proof. now destruct s. Qed.

Lemma Forall2_map_right (A B : Type) (P : A -> B -> Prop) (f : A -> B) l :
  (forall x, In x l -> P x (f x)) -> Forall2 P l (map f l).
Proof.
  induction l as [|x l IH]; simpl; intros H; constructor; auto.
Qed.

(** X1.  In a compiled instance the rules and the paths stand in the order of
    the spec, every rule holds the chain made of the server filter and its own
    filter, and every path the chain made of the server filter, the filter of
    its rule and its own filter, each where the spec gives one. *)
Theorem reload_chain_inheritance (spec : Spec) :
  chainFilters (inst_ipFilterChan (reload spec)) = childFilters (Spec_IPFilter spec)
  /\ ownFilters (inst_ipFilter (reload spec)) = childFilters (Spec_IPFilter spec)
  /\ Forall2
       (fun R h =>
          host h = Rule_Host R
          /\ ownFilters (rule_ipFilter h) = childFilters (Rule_IPFilter R)
          /\ chainFilters (rule_ipFilterChain h)
             = childFilters (Spec_IPFilter spec) ++ childFilters (Rule_IPFilter R)
          /\ Forall2
               (fun P p =>
                  backend p = Path_Backend P
                  /\ ownFilters (path_ipFilter p) = childFilters (Path_IPFilter P)
                  /\ chainFilters (path_ipFilterChain p)
                     = childFilters (Spec_IPFilter spec)
                       ++ childFilters (Rule_IPFilter R)
                       ++ childFilters (Path_IPFilter P))
               (Rule_Paths R) (paths h))
       (Spec_Rules spec) (rules (reload spec)).
Proof.
  unfold reload. simpl.
  split; [apply (chainFilters_newIPFilterChain None)|].
  split; [apply ownFilters_newIPFilter|].
  apply Forall2_map_right. intros R _. simpl.
  split; auto. split; [apply ownFilters_newIPFilter|].
  split.
  - rewrite !chainFilters_newIPFilterChain. reflexivity.
  - apply Forall2_map_right. intros P _. simpl.
    split; auto. split; [apply ownFilters_newIPFilter|].
    rewrite !chainFilters_newIPFilterChain. simpl. now rewrite app_assoc.
Qed.

(** X2.  A path_regexp that does not compile is ignored: the compiled path
    matches as the path compiled from the same spec without path_regexp, so a
    path whose only predicate is such an expression matches every request.
    The same holds for the host_regexp of a rule. *)
Theorem uncompiled_regexp_ignored (chain : option IPFilters) (P : Path) (R : Rule)
    (ps : list MuxPath) (rq : Request) :
  regexp_Compile (Path_PathRegexp P) = None ->
  regexp_Compile (Rule_HostRegexp R) = None ->
  (matchPath (newMuxPath chain P) rq
   = (String.eqb (Path_Path P) "" && String.eqb (Path_PathPrefix P) "")
     || (negb (String.eqb (Path_Path P) "") && String.eqb (Path_Path P) (URL_Path rq))
     || (negb (String.eqb (Path_PathPrefix P) "")
         && String.prefix (Path_PathPrefix P) (URL_Path rq)))
  /\ (Path_Path P = "" -> Path_PathPrefix P = "" ->
      matchPath (newMuxPath chain P) rq = true)
  /\ (muxRule_match (newMuxRule chain R ps) rq
      = String.eqb (Rule_Host R) ""
        || (negb (String.eqb (Rule_Host R) "")
            && String.eqb (Rule_Host R) (comparedHost rq)))
  /\ (Rule_Host R = "" -> muxRule_match (newMuxRule chain R ps) rq = true).
Proof.
  intros HP HR.
  assert (HpRE : pathRE (newMuxPath chain P) = None).
  { unfold newMuxPath. simpl. now destruct (String.eqb (Path_PathRegexp P) ""). }
  assert (HhRE : hostRE (newMuxRule chain R ps) = None).
  { unfold newMuxRule. simpl. now destruct (String.eqb (Rule_HostRegexp R) ""). }
  assert (H1 : matchPath (newMuxPath chain P) rq
   = (String.eqb (Path_Path P) "" && String.eqb (Path_PathPrefix P) "")
     || (negb (String.eqb (Path_Path P) "") && String.eqb (Path_Path P) (URL_Path rq))
     || (negb (String.eqb (Path_PathPrefix P) "")
         && String.prefix (Path_PathPrefix P) (URL_Path rq))).
  { unfold matchPath. rewrite HpRE. simpl.
    destruct (String.eqb (Path_Path P) ""), (String.eqb (Path_PathPrefix P) ""),
      (String.eqb (Path_Path P) (URL_Path rq)),
      (String.prefix (Path_PathPrefix P) (URL_Path rq)); reflexivity. }
  assert (H2 : muxRule_match (newMuxRule chain R ps) rq
      = String.eqb (Rule_Host R) ""
        || (negb (String.eqb (Rule_Host R) "")
            && String.eqb (Rule_Host R) (comparedHost rq))).
  { unfold muxRule_match, comparedHost. rewrite HhRE. simpl.
    destruct (String.eqb (Rule_Host R) ""); simpl; auto.
    now destruct (String.eqb (Rule_Host R) _). }
  repeat split; auto.
  - intros Ha Hb. rewrite H1, Ha, Hb. reflexivity.
  - intros Ha. rewrite H2, Ha. reflexivity.
Qed.

(** X3.  A rule compiled without host_regexp matches every request when it
    has no host either, and otherwise exactly the requests whose host, its
    port left out, is the host of the rule. *)
Theorem literal_host_rule (chain : option IPFilters) (R : Rule) (ps : list MuxPath)
    (rq : Request) :
  Rule_HostRegexp R = "" ->
  muxRule_match (newMuxRule chain R ps) rq
  = String.eqb (Rule_Host R) "" || String.eqb (Rule_Host R) (comparedHost rq).
Proof.
  intros HR. unfold muxRule_match, newMuxRule, comparedHost. simpl. rewrite HR. simpl.
  destruct (String.eqb (Rule_Host R) ""); simpl; auto.
  now destruct (String.eqb (Rule_Host R) _).
Qed.

End Compilation.

Lemma uncompiled_regexp_ignored_witness :
  matchPath (E := checkedExternals Panic)
    (newMuxPath (E := checkedExternals Panic) None
       {| Path_IPFilter := None; Path_Path := ""; Path_PathPrefix := "";
          Path_PathRegexp := "/[a-z+"; Path_RewriteTarget := ""; Path_Methods := [];
          Path_Backend := "abc-pipeline"; Path_Headers := []; MatchAllHeader := false |})
    (get "www.megaease.com" "/abc" []) = true.
Proof.
  pose (E := checkedExternals Panic).
  pose (P := {| Path_IPFilter := None; Path_Path := ""; Path_PathPrefix := "";
                Path_PathRegexp := "/[a-z+"; Path_RewriteTarget := ""; Path_Methods := [];
                Path_Backend := "abc-pipeline"; Path_Headers := [];
                MatchAllHeader := false |}).
  pose (R := {| Rule_IPFilter := None; Rule_Host := ""; Rule_HostRegexp := "/[a-z+";
                Rule_Paths := [] |}).
  destruct (@uncompiled_regexp_ignored E None P R [] (get "www.megaease.com" "/abc" [])
              eq_refl eq_refl) as (_ & H & _).
  exact (H eq_refl eq_refl).
Defined.

Lemma literal_host_rule_witness :
  muxRule_match (E := simpleExternals Panic)
    (newMuxRule (E := simpleExternals Panic) None
       {| Rule_IPFilter := None; Rule_Host := "www.megaease.com"; Rule_HostRegexp := "";
          Rule_Paths := [] |} [])
    abcRequest = true.
Proof.
  exact (@literal_host_rule (simpleExternals Panic) None
           {| Rule_IPFilter := None; Rule_Host := "www.megaease.com";
              Rule_HostRegexp := ""; Rule_Paths := [] |} [] abcRequest eq_refl).
Defined.

(** ** The matchers of a path *)

Section Matchers.

Context {E : Externals}.

Lemma prefix_iff p u : String.prefix p u = true <-> exists rest, u = (p ++ rest)%string.
Proof.
  revert u. induction p as [|a p IH]; intros u; simpl.
  - destruct u; split; eauto.
  - destruct u as [|b u]; simpl.
    + split; [discriminate|]. intros [rest H]. discriminate.
    + destruct (ascii_dec a b) as [->|Hne].
      * rewrite IH. split; intros [rest H]; exists rest; [now subst|].
        now injection H.
      * split; [discriminate|]. intros [rest H]. injection H as H1 H2. congruence.
Qed.

Lemma eqb_empty_false s : s <> "" -> String.eqb s "" = false.
Proof. intros H. now apply String.eqb_neq. Qed.

(** X4.  A path matches a request exactly when it has no path predicate at
    all, or its literal path is the request path, or the request path starts
    with its prefix, or its compiled expression matches the request path. *)
Theorem matchPath_iff (mp : MuxPath) (rq : Request) :
  matchPath mp rq = true <->
    (path mp = "" /\ pathPrefix mp = "" /\ pathRE mp = None)
    \/ (path mp <> "" /\ path mp = URL_Path rq)
    \/ (pathPrefix mp <> "" /\ exists rest, URL_Path rq = (pathPrefix mp ++ rest)%string)
    \/ (exists re, pathRE mp = Some re /\ MatchString re (URL_Path rq) = true).
Proof.
  unfold matchPath. rewrite <- prefix_iff.
  destruct (String.eqb (path mp) "") eqn:H1;
    [apply String.eqb_eq in H1|apply String.eqb_neq in H1];
  (destruct (String.eqb (pathPrefix mp) "") eqn:H2;
    [apply String.eqb_eq in H2|apply String.eqb_neq in H2]);
  (destruct (pathRE mp) as [re|] eqn:H3); simpl;
  (destruct (String.eqb (path mp) (URL_Path rq)) eqn:H4;
    [apply String.eqb_eq in H4|apply String.eqb_neq in H4]);
  (destruct (String.prefix (pathPrefix mp) (URL_Path rq)) eqn:H5); simpl;
  split; intros H;
  repeat match goal with
    | H : _ \/ _ |- _ => destruct H
    | H : _ /\ _ |- _ => destruct H
    | H : exists _, _ |- _ => destruct H
    | H : Some _ = Some _ |- _ => injection H as H; subst
    end;
  try congruence; try discriminate; auto 6; eauto 8.
Qed.

(** X5.  A path accepts the method of a request exactly when its method list
    is empty or holds that method. *)
Theorem matchMethod_iff (mp : MuxPath) (rq : Request) :
  matchMethod mp rq = true <-> methods mp = [] \/ In (Method rq) (methods mp).
Proof.
  unfold matchMethod, StrInSlice.
  destruct (methods mp) as [|m ms] eqn:Hm; simpl.
  - split; auto.
  - rewrite orb_true_iff, existsb_exists, String.eqb_eq. split.
    + intros [->|[x [Hx Hq]]]; right; auto.
      apply String.eqb_eq in Hq. subst. auto.
    + intros [H|[->|H]]; [discriminate|auto|].
      right. exists (Method rq). split; auto. apply String.eqb_refl.
Qed.

(** X6.  A header the request does not carry is read as the empty string: the
    predicate on it is met exactly when the empty string is among its values,
    or its regexp is set and matches the empty string. *)
Theorem headerMatches_missing (h : Header) (rq : Request) :
  Header_values (CanonicalMIMEHeaderKey (Key h)) (Req_Header rq) = [] ->
  headerMatches h rq
  = StrInSlice "" (Values h)
    || (negb (String.eqb (Regexp h) "") && MatchString (headerRE h) "").
Proof.
  intros Hv. unfold headerMatches, Header_Get. rewrite Hv.
  now destruct (StrInSlice "" (Values h)).
Qed.

End Matchers.

Lemma headerMatches_missing_witness :
  headerMatches (E := simpleExternals Panic) xTest
    (get "www.megaease.com" "/123" (from "192.168.1.4")) = false.
Proof.
  exact (@headerMatches_missing (simpleExternals Panic) xTest
           (get "www.megaease.com" "/123" (from "192.168.1.4")) eq_refl).
Defined.

(** ** What search keeps *)

Section Keeps.

Context {E : Externals}.

Lemma visitPath_tree req ip p l mi :
  rules (flowInstance (visitPath req ip p l mi)) = rules mi
  /\ inst_ipFilter (flowInstance (visitPath req ip p l mi)) = inst_ipFilter mi.
Proof.
  unfold visitPath.
  pose proof (put_tree req mi (okRoute p)) as (H1 & H2 & _).
  destruct (matchPath p req), (matchMethod p req), (length (headers p) =? 0)%nat,
    (matchHeaders p req), (allowIP (path_ipFilter p) ip); simpl; auto.
Qed.

Lemma rangePaths_tree req ip ps : forall l mi,
  rules (flowInstance (rangePaths req ip ps l mi)) = rules mi
  /\ inst_ipFilter (flowInstance (rangePaths req ip ps l mi)) = inst_ipFilter mi.
Proof.
  induction ps as [|p ps IH]; simpl; intros l mi; auto.
  pose proof (visitPath_tree req ip p l mi) as [H1 H2].
  destruct (visitPath req ip p l mi) as [l1 mi1| |]; simpl in *; auto.
  destruct (IH l1 mi1) as [H3 H4]. split; congruence.
Qed.

Lemma rangeRules_tree req ip hs : forall l mi,
  rules (flowInstance (rangeRules req ip hs l mi)) = rules mi
  /\ inst_ipFilter (flowInstance (rangeRules req ip hs l mi)) = inst_ipFilter mi.
Proof.
  induction hs as [|h hs IH]; simpl; intros l mi; auto.
  assert (Hv : rules (flowInstance (visitRule req ip h l mi)) = rules mi
               /\ inst_ipFilter (flowInstance (visitRule req ip h l mi)) = inst_ipFilter mi).
  { unfold visitRule. destruct (muxRule_match h req); simpl; auto.
    destruct (IPFilter_Allow (rule_ipFilter h) ip) as [[|]|]; simpl; auto.
    apply rangePaths_tree. }
  destruct Hv as [H1 H2].
  destruct (visitRule req ip h l mi) as [l1 mi1| |]; simpl in *; auto.
  destruct (IH l1 mi1) as [H3 H4]. split; congruence.
Qed.

(** search leaves the matcher tree as it is, and the cache enabled or
    disabled as it found it. *)
Lemma search_tree mi req :
  rules (snd (search mi req)) = rules mi
  /\ inst_ipFilter (snd (search mi req)) = inst_ipFilter mi
  /\ (cache (snd (search mi req)) = None <-> cache mi = None).
Proof.
  unfold search.
  pose proof (getCacheRoute_tree mi req) as [G1 G2].
  assert (G3 : cache (snd (getCacheRoute mi req)) = None <-> cache mi = None).
  { unfold getCacheRoute. destruct (cache mi) as [c|] eqn:Hc; simpl; [|now rewrite Hc].
    destruct (ARCCache_Get c (cacheKey req)); simpl. split; discriminate. }
  destruct (getCacheRoute mi req) as [[r0|] mi0]; simpl in *; auto.
  destruct (allowIP (inst_ipFilter mi0) (realip_FromRequest req)); simpl; auto.
  pose proof (rangeRules_tree req (realip_FromRequest req) (rules mi0) initLocals mi0)
    as [R1 R2].
  pose proof (rangeRules_cache req (realip_FromRequest req) (rules mi0) initLocals mi0)
    as R3.
  destruct (rangeRules req (realip_FromRequest req) (rules mi0) initLocals mi0)
    as [l mi1|v mi1|mi1]; simpl in *;
    try (repeat split; try congruence; tauto).
  unfold fallbacks.
  destruct (headerMismatch l); simpl; [repeat split; try congruence; tauto|].
  destruct (methodMismatch l); simpl;
    match goal with
    | |- context [putRouteToCache mi1 req ?v] =>
        pose proof (put_tree req mi1 v) as (P1 & P2 & P3)
    end; repeat split; try congruence; tauto.
Qed.

Lemma searches_tree reqs : forall mi,
  rules (searches mi reqs) = rules mi
  /\ (cache (searches mi reqs) = None <-> cache mi = None).
Proof.
  induction reqs as [|req reqs IH]; simpl; intros mi; [tauto|].
  destruct (IH (snd (search mi req))) as [H1 H2].
  destruct (search_tree mi req) as (S1 & _ & S3).
  split; [congruence|tauto].
Qed.

Lemma reload_cache_none spec : cache (reload spec) = None <-> CacheSize spec = 0%N.
Proof.
  unfold reload, lru_NewARC. simpl.
  destruct (CacheSize spec); simpl; split; auto; discriminate.
Qed.

Lemma reload_entries spec : entries (reload spec) = [].
Proof.
  unfold entries, reload, lru_NewARC. simpl. now destruct (CacheSize spec).
Qed.

(** X7.  An instance has a route cache exactly when the cache size of its
    spec is positive, whatever requests it has served; the cache of a fresh
    instance is empty and has the capacity the spec gives. *)
Theorem cache_presence (spec : Spec) (reqs : list Request) :
  (cache (searches (reload spec) reqs) = None <-> CacheSize spec = 0%N)
  /\ entries (reload spec) = []
  /\ (forall c, cache (reload spec) = Some c -> size c = N.to_nat (CacheSize spec)).
Proof.
  destruct (searches_tree reqs (reload spec)) as [_ H].
  rewrite H, reload_cache_none. split; [tauto|]. split; [apply reload_entries|].
  unfold reload, lru_NewARC. simpl.
  destruct (CacheSize spec) as [|n]; simpl; [discriminate|].
  now intros c [= <-].
Qed.

End Keeps.

(** ** The routes search stores and returns *)

Section Routes.

Context {E : Externals}.
Variable ps : list MuxPath.

Lemma cacheValid_put mi req v :
  cacheValid ps mi -> validRoute ps v -> cacheValid ps (putRouteToCache mi req v).
Proof.
  intros Hc Hv k v' Hin. apply entries_put in Hin.
  destruct Hin as [[_ ->]|Hin]; auto. now apply (Hc k).
Qed.

Lemma cacheValid_get mi req :
  cacheValid ps mi -> cacheValid ps (snd (getCacheRoute mi req)).
Proof.
  intros Hc k v Hin. apply entries_get in Hin. now apply (Hc k).
Qed.

Lemma getCacheRoute_entry mi req v :
  fst (getCacheRoute mi req) = Some v -> In (cacheKey req, v) (entries mi).
Proof.
  rewrite getCacheRoute_stored. unfold stored, entries.
  destruct (cache mi); [apply lookup_In | discriminate].
Qed.

Lemma visitPath_valid req ip p l mi :
  In p ps -> localsValid ps l -> cacheValid ps mi ->
  flowValid ps (visitPath req ip p l mi).
Proof.
  intros Hp Hl Hc. unfold visitPath.
  destruct (matchPath p req); simpl; [|now split].
  destruct (matchMethod p req); simpl; [|now split].
  destruct (length (headers p) =? 0)%nat eqn:Hlen.
  - assert (Hh : headers p = []) by (apply Nat.eqb_eq in Hlen; now destruct (headers p)).
    assert (Hok : exists q, Some (okRoute p) = Some (okRoute q) /\ In q ps /\ headers q = [])
      by (exists p; auto).
    assert (Hput : cacheValid ps (putRouteToCache mi req (okRoute p))).
    { apply cacheValid_put; auto. right. right. exists p. auto. }
    destruct (matchHeaders p req); simpl; [|split; auto; right; auto].
    destruct (allowIP (path_ipFilter p) ip); simpl; split; auto.
  - destruct (matchHeaders p req); simpl; [|now split].
    destruct (allowIP (path_ipFilter p) ip); simpl; split; auto.
Qed.

Lemma rangePaths_valid req ip qs : forall l mi,
  incl qs ps -> localsValid ps l -> cacheValid ps mi ->
  flowValid ps (rangePaths req ip qs l mi).
Proof.
  induction qs as [|p qs IH]; simpl; intros l mi Hq Hl Hc; [now split|].
  assert (Hv : flowValid ps (visitPath req ip p l mi))
    by (apply visitPath_valid; auto; apply Hq; now left).
  destruct (visitPath req ip p l mi) as [l1 mi1| |]; simpl in *; auto.
  destruct Hv. apply IH; auto. intros q Hin. apply Hq. now right.
Qed.

Lemma rangeRules_valid req ip hs : forall l mi,
  (forall h, In h hs -> incl (paths h) ps) -> localsValid ps l -> cacheValid ps mi ->
  flowValid ps (rangeRules req ip hs l mi).
Proof.
  induction hs as [|h hs IH]; simpl; intros l mi Hq Hl Hc; [now split|].
  assert (Hv : flowValid ps (visitRule req ip h l mi)).
  { unfold visitRule. destruct (muxRule_match h req); simpl; [|now split].
    destruct (IPFilter_Allow (rule_ipFilter h) ip) as [[|]|]; simpl; auto.
    apply rangePaths_valid; auto. }
  destruct (visitRule req ip h l mi) as [l1 mi1| |]; simpl in *; auto.
  destruct Hv. apply IH; auto.
Qed.

Lemma validRoute_verdict v : validRoute ps v -> verdict ps v.
Proof.
  unfold verdict. intros [->|[->|[p (-> & Hp & _)]]]; auto 6.
  right. right. right. right. now exists p.
Qed.

(** A call of search keeps the cache valid, and its result, when it is a
    route, is a verdict. *)
Lemma search_valid mi req :
  incl (instancePaths mi) ps -> cacheValid ps mi ->
  cacheValid ps (snd (search mi req))
  /\ match fst (search mi req) with
     | Done (Some rt) => verdict ps rt
     | _ => True
     end.
Proof.
  intros Hincl Hc. unfold search.
  pose proof (cacheValid_get req Hc) as Hg.
  pose proof (@getCacheRoute_entry mi req) as He.
  pose proof (getCacheRoute_tree mi req) as [Hr _].
  destruct (getCacheRoute mi req) as [[r0|] mi0]; simpl in *.
  - split; auto. specialize (He r0 eq_refl). apply Hc in He.
    unfold cacheHit. destruct (code r0 =? StatusOK)%Z; simpl;
      [|now apply validRoute_verdict].
    destruct (route_path r0) as [p|]; auto.
    destruct (path_ipFilterChain p); [|now apply validRoute_verdict].
    destruct (IPFilter_Allow (path_ipFilter p) (realip_FromRequest req)) as [[|]|]; auto.
    + now apply validRoute_verdict.
    + left. reflexivity.
  - destruct (allowIP (inst_ipFilter mi0) (realip_FromRequest req)); simpl;
      [|split; auto; left; reflexivity].
    assert (Hv : flowValid ps (rangeRules req (realip_FromRequest req) (rules mi0)
                                 initLocals mi0)).
    { apply rangeRules_valid; auto; [|now left].
      intros h Hh q Hq. apply Hincl. unfold instancePaths. rewrite <- Hr.
      apply in_flat_map. eauto. }
    destruct (rangeRules req (realip_FromRequest req) (rules mi0) initLocals mi0)
      as [l mi1|v mi1|mi1]; simpl in *; auto.
    + destruct Hv as [_ Hc1]. unfold fallbacks.
      destruct (headerMismatch l); simpl; [split; auto; right; left; reflexivity|].
      destruct (methodMismatch l); simpl; split;
        try (apply cacheValid_put; auto; unfold validRoute; auto);
        unfold verdict; auto.
    + destruct Hv as [Hv Hc1]. split; auto.
      destruct Hv as [->|[->|[p (-> & Hp & _)]]]; auto; [left; reflexivity|].
      right. right. right. right. now exists p.
Qed.

End Routes.

Section Verdicts.

Context {E : Externals}.

Lemma searches_valid reqs : forall mi ps,
  incl (instancePaths mi) ps -> cacheValid ps mi ->
  cacheValid ps (searches mi reqs) /\ incl (instancePaths (searches mi reqs)) ps.
Proof.
  induction reqs as [|req reqs IH]; simpl; intros mi ps Hi Hc; auto.
  destruct (search_valid req Hi Hc) as [Hc' _].
  apply IH; auto.
  unfold instancePaths. destruct (search_tree mi req) as [-> _]. exact Hi.
Qed.

Lemma reload_valid spec ps : cacheValid ps (reload spec).
Proof.
  intros k v. rewrite reload_entries. intros [].
Qed.

(** X8.  Whatever requests a compiled instance has served, every entry of its
    cache is NotFound, MethodNotAllowed, or the OK route of one of its paths
    that has no header predicate. *)
Theorem cached_routes_valid (spec : Spec) (reqs : list Request) :
  cacheValid (instancePaths (reload spec)) (searches (reload spec) reqs).
Proof.
  apply searches_valid; [apply incl_refl | apply reload_valid].
Qed.

(** X9.  Whatever requests a compiled instance has served, a route returned
    by search is Forbidden, BadRequest, MethodNotAllowed, NotFound or the OK
    route of one of the paths of the instance. *)
Theorem search_verdicts (spec : Spec) (reqs : list Request) (req : Request) :
  match fst (search (searches (reload spec) reqs) req) with
  | Done (Some rt) => verdict (instancePaths (reload spec)) rt
  | Done None => True
  | Panic => True
  end.
Proof.
  destruct (@searches_valid reqs (reload spec) _ (incl_refl _)
              (reload_valid spec _)) as [Hc Hi].
  destruct (search_valid req Hi Hc) as [_ H].
  destruct (fst (search (searches (reload spec) reqs) req)) as [[rt|]|]; auto.
Qed.

End Verdicts.

(** ** First match *)

Section FirstMatch.

Context {E : Externals}.
Variables (req : Request) (ip : string).

Lemma visitPath_cases p l mi :
  match visitPath req ip p l mi with
  | Continue _ _ => passes req p = false
  | Return v _ =>
      passes req p = true
      /\ (allowIP (path_ipFilter p) ip = false -> v = Some forbidden)
  | Crash _ => False
  end.
Proof.
  unfold visitPath, passes.
  destruct (matchPath p req), (matchMethod p req), (length (headers p) =? 0)%nat,
    (matchHeaders p req), (allowIP (path_ipFilter p) ip); simpl; auto;
    split; auto; discriminate.
Qed.

(** X10.  The path loop stops at the first path, in the order of the rule,
    that passes the path, method and header checks, and answers Forbidden when
    the own filter of that path denies the client; it goes through all the
    paths exactly when none passes the three checks; it never panics. *)
Theorem rangePaths_first_match (ps : list MuxPath) (l : locals) (mi : muxInstance) :
  match rangePaths req ip ps l mi with
  | Continue _ _ => existsb (passes req) ps = false
  | Return v _ =>
      exists before p after,
        ps = before ++ p :: after
        /\ existsb (passes req) before = false
        /\ passes req p = true
        /\ (allowIP (path_ipFilter p) ip = false -> v = Some forbidden)
  | Crash _ => False
  end.
Proof.
  revert l mi. induction ps as [|p ps IH]; simpl; intros l mi; auto.
  pose proof (visitPath_cases p l mi) as Hv.
  destruct (visitPath req ip p l mi) as [l1 mi1|v mi1|mi1]; simpl; auto.
  - rewrite Hv. simpl. specialize (IH l1 mi1).
    destruct (rangePaths req ip ps l1 mi1) as [l2 mi2|v mi2|mi2]; auto.
    destruct IH as (before & q & after & -> & Hb & Hq & Hf).
    exists (p :: before), q, after. simpl. rewrite Hv, Hb. auto.
  - destruct Hv as [Hp Hf]. exists [], p, ps. auto.
Qed.

(** The path loop goes on when no path passes the three checks, returns when
    one does, and does not panic. *)
Lemma rangePaths_outcome ps : forall l mi,
  match rangePaths req ip ps l mi with
  | Continue _ _ => existsb (passes req) ps = false
  | Return _ _ => existsb (passes req) ps = true
  | Crash _ => False
  end.
Proof.
  induction ps as [|p ps IH]; simpl; intros l mi; auto.
  pose proof (visitPath_cases p l mi) as Hv.
  destruct (visitPath req ip p l mi) as [l1 mi1|v mi1|mi1]; simpl; auto.
  - rewrite Hv. simpl. apply IH.
  - destruct Hv as [-> _]. reflexivity.
Qed.




(** X11.  The rule loop goes through all the rules, so that search falls back
    on BadRequest, MethodNotAllowed or NotFound, exactly when the own filter of
    every rule matching the host allows the client and no path of such a rule
    passes the path, method and header checks. *)
Theorem rangeRules_falls_through (hs : list muxRule) (l : locals) (mi : muxInstance) :
  (exists l' mi', rangeRules req ip hs l mi = Continue l' mi')
  <-> (forall h, In h hs -> muxRule_match h req = true ->
         IPFilter_Allow (rule_ipFilter h) ip = Done true
         /\ existsb (passes req) (paths h) = false).
Proof.
  revert l mi. induction hs as [|h hs IH]; simpl; intros l mi.
  - split; [intros _ h []| eauto].
  - unfold visitRule at 1. destruct (muxRule_match h req) eqn:Hm; simpl.
    + destruct (IPFilter_Allow (rule_ipFilter h) ip) as [[|]|] eqn:Ha.
      * pose proof (rangePaths_outcome (paths h) l mi) as Hp.
        destruct (rangePaths req ip (paths h) l mi) as [l1 mi1|v mi1|mi1] eqn:Hr.
        -- rewrite IH. split.
           ++ intros H h' [<-|Hin] Hm'; auto.
           ++ intros H h' Hin Hm'. apply H; auto.
        -- split; [intros (l' & mi' & H); discriminate|].
           intros H. destruct (H h (or_introl eq_refl) Hm) as [_ Hn]. congruence.
        -- tauto.
      * split; [intros (l' & mi' & H); discriminate|].
        intros H. destruct (H h (or_introl eq_refl) Hm) as [Hn _]. congruence.
      * split; [intros (l' & mi' & H); discriminate|].
        intros H. destruct (H h (or_introl eq_refl) Hm) as [Hn _]. congruence.
    + rewrite IH. split.
      * intros H h' [<-|Hin] Hm'; [congruence|auto].
      * intros H h' Hin Hm'. apply H; auto.
Qed.

End FirstMatch.

(** ** Dispatch and repeated requests *)

Section Dispatch.

Context {E : Externals}.




Lemma stored_In mi k v : stored mi k = Some v -> In (k, v) (entries mi).
Proof.
  unfold stored, entries. destruct (cache mi); [apply lookup_In | discriminate].
Qed.

(** With the cache enabled, a terminal verdict of search that the cache may
    hold is in the cache, under the key of the request, after the call. *)
Lemma search_stores_terminal ps mi req v :
  incl (instancePaths mi) ps -> cacheValid ps mi -> cache mi <> None ->
  fst (search mi req) = Done (Some v) -> v = notFound \/ v = methodNotAllowed ->
  stored (snd (search mi req)) (cacheKey req) = Some v.
Proof.
  intros Hi Hc Hon. unfold search.
  pose proof (getCacheRoute_stored mi req) as Hs.
  pose proof (getCacheRoute_keeps mi req (cacheKey req)) as Hk.
  pose proof (getCacheRoute_tree mi req) as [Hr _].
  pose proof (cacheValid_get req Hc) as Hg.
  assert (Hon0 : cache (snd (getCacheRoute mi req)) <> None).
  { unfold getCacheRoute. destruct (cache mi) as [c|]; [|congruence].
    destruct (ARCCache_Get c (cacheKey req)). discriminate. }
  destruct (getCacheRoute mi req) as [[r0|] mi0]; simpl in *.
  - intros Hres Hv. rewrite Hk, <- Hs. f_equal.
    unfold cacheHit in Hres. destruct (code r0 =? StatusOK)%Z eqn:Hcode; simpl in Hres.
    + destruct (route_path r0) as [p|]; [|discriminate].
      apply Z.eqb_eq in Hcode.
      destruct (path_ipFilterChain p);
        [destruct (IPFilter_Allow (path_ipFilter p) (realip_FromRequest req)) as [[|]|]|];
        try discriminate; injection Hres as <-;
        destruct Hv as [Hv|Hv]; rewrite Hv in *; discriminate.
    + now injection Hres.
  - destruct (allowIP (inst_ipFilter mi0) (realip_FromRequest req)); simpl.
    + assert (Hf : flowValid ps (rangeRules req (realip_FromRequest req) (rules mi0)
                                   initLocals mi0)).
      { apply rangeRules_valid; auto; [|now left].
        intros h Hh q Hq. apply Hi. unfold instancePaths. rewrite <- Hr.
        apply in_flat_map. eauto. }
      pose proof (rangeRules_cache req (realip_FromRequest req) (rules mi0) initLocals mi0)
        as Hcache.
      destruct (rangeRules req (realip_FromRequest req) (rules mi0) initLocals mi0)
        as [l mi1|v0 mi1|mi1]; simpl in *.
      * assert (Hon1 : exists c, cache mi1 = Some c).
        { destruct (cache mi1) as [c|]; eauto. elim Hon0. now apply Hcache. }
        destruct Hon1 as [c Hc1]. unfold fallbacks.
        destruct (headerMismatch l); simpl.
        -- intros [= <-] [H|H]; discriminate.
        -- destruct (methodMismatch l); simpl; intros [= <-] _;
             now apply stored_put_same with (c := c).
      * destruct Hf as [[->|[->|[p (-> & _)]]] _]; intros [= <-] [H|H]; discriminate.
      * discriminate.
    + intros [= <-] [H|H]; discriminate.
Qed.

(** X13.  On a compiled instance with a cache, once search has answered
    NotFound or MethodNotAllowed for a request, the next search for a request
    with the same host, method and URL path answers the same from the cache,
    whatever its headers and its client address. *)
Theorem terminal_verdict_repeats (spec : Spec) (reqs : list Request)
    (req req' : Request) (v : route) :
  CacheSize spec <> 0%N ->
  fst (search (searches (reload spec) reqs) req) = Done (Some v) ->
  v = notFound \/ v = methodNotAllowed ->
  cacheKey req' = cacheKey req ->
  fst (search (snd (search (searches (reload spec) reqs) req)) req') = Done (Some v).
Proof.
  intros Hsize Hres Hv Hkey.
  destruct (@searches_valid E reqs (reload spec) _ (incl_refl _)
              (reload_valid spec _)) as [Hc Hi].
  assert (Hon : cache (searches (reload spec) reqs) <> None).
  { intros Hn. apply searches_tree in Hn. apply reload_cache_none in Hn.
    contradiction. }
  pose proof (search_stores_terminal req Hi Hc Hon Hres Hv) as Hst.
  remember (snd (search (searches (reload spec) reqs) req)) as mi1.
  unfold search.
  pose proof (getCacheRoute_stored mi1 req') as Hs. rewrite Hkey, Hst in Hs.
  destruct (getCacheRoute mi1 req') as [r1 mi2]; simpl in *. subst r1.
  unfold cacheHit. destruct Hv as [-> | ->]; reflexivity.
Qed.

(** On an instance without rules whose cache holds NotFound only, search
    answers Forbidden when the cache has nothing under the key of the request
    and the server filter denies the client, and NotFound otherwise; the
    cache still holds NotFound only. *)
Lemma search_empty mi req :
  rules mi = [] -> (forall k v, In (k, v) (entries mi) -> v = notFound) ->
  ((fst (search mi req) = Done (Some forbidden)
    /\ stored mi (cacheKey req) = None
    /\ allowIP (inst_ipFilter mi) (realip_FromRequest req) = false)
   \/ (fst (search mi req) = Done (Some notFound)
       /\ (stored mi (cacheKey req) <> None
           \/ allowIP (inst_ipFilter mi) (realip_FromRequest req) = true)))
  /\ (forall k v, In (k, v) (entries (snd (search mi req))) -> v = notFound).
Proof.
  intros Hr Hc. unfold search.
  pose proof (@getCacheRoute_entry mi req) as He.
  pose proof (getCacheRoute_stored mi req) as Hs.
  pose proof (getCacheRoute_tree mi req) as [Hr0 Hf0].
  assert (Hg : forall k v, In (k, v) (entries (snd (getCacheRoute mi req))) -> v = notFound).
  { intros k v Hin. apply entries_get in Hin. eauto. }
  destruct (getCacheRoute mi req) as [[r0|] mi0]; simpl in *.
  - rewrite (Hc _ _ (He r0 eq_refl)). split; auto.
    right. split; auto. left. rewrite <- Hs. discriminate.
  - rewrite Hr0, Hr, Hf0.
    destruct (allowIP (inst_ipFilter mi) (realip_FromRequest req)); simpl.
    + split; auto. intros k v Hin. apply entries_put in Hin.
      destruct Hin as [[_ ->]|Hin]; eauto.
    + split; auto.
Qed.

(** X14.  An instance compiled from a spec without rules answers NotFound or
    Forbidden to every request, whatever it has served before.  It answers
    Forbidden exactly when its cache has nothing under the key of the request
    and the server filter denies the client: a NotFound in the cache is
    repeated to a client the filter denies.  Without a server filter the
    answer is always NotFound. *)
Theorem empty_rules_not_found (spec : Spec) (reqs : list Request) (req : Request) :
  Spec_Rules spec = [] ->
  (fst (search (searches (reload spec) reqs) req) = Done (Some notFound)
   \/ fst (search (searches (reload spec) reqs) req) = Done (Some forbidden))
  /\ (fst (search (searches (reload spec) reqs) req) = Done (Some forbidden)
      <-> stored (searches (reload spec) reqs) (cacheKey req) = None
          /\ allowIP (newIPFilter (Spec_IPFilter spec)) (realip_FromRequest req) = false)
  /\ (Spec_IPFilter spec = None ->
      fst (search (searches (reload spec) reqs) req) = Done (Some notFound)).
Proof.
  intros Hrules.
  assert (Hinv : forall rs mi, rules mi = [] ->
            (forall k v, In (k, v) (entries mi) -> v = notFound) ->
            rules (searches mi rs) = []
            /\ inst_ipFilter (searches mi rs) = inst_ipFilter mi
            /\ (forall k v, In (k, v) (entries (searches mi rs)) -> v = notFound)).
  { induction rs as [|rq rs IH]; simpl; intros mi Hr Hc; auto.
    destruct (@search_empty mi rq Hr Hc) as [_ Hc'].
    destruct (search_tree mi rq) as (T1 & T2 & _).
    destruct (IH (snd (search mi rq))) as (I1 & I2 & I3); auto; [congruence|].
    repeat split; auto. congruence. }
  destruct (Hinv reqs (reload spec)) as (Hr & Hf & Hc).
  - unfold reload. simpl. now rewrite Hrules.
  - rewrite reload_entries. intros k v [].
  - assert (Hfilter : inst_ipFilter (searches (reload spec) reqs)
                      = newIPFilter (Spec_IPFilter spec)) by (now rewrite Hf).
    destruct (@search_empty _ req Hr Hc) as [[(H & Hst & Hip)|(H & Hwhy)] _];
      rewrite Hfilter in *; rewrite H.
    + split; auto. split; [tauto|].
      intros Hnone. rewrite Hnone in Hip. discriminate.
    + split; auto. split; auto.
      split; [discriminate|].
      intros [Hst Hip]. destruct Hwhy as [Hw|Hw]; congruence.
Qed.

End Dispatch.

Lemma terminal_verdict_repeats_witness :
  fst (search (E := simpleExternals Panic)
         (snd (search (E := simpleExternals Panic)
                 (reload (E := simpleExternals Panic) testSpec)
                 (get "www.megaease.com" "/xyz" (from "192.168.1.4"))))
         (get "www.megaease.com" "/xyz" (from "192.168.1.1")))
  = Done (Some methodNotAllowed).
Proof.
  apply (@terminal_verdict_repeats (simpleExternals Panic) testSpec []
           (get "www.megaease.com" "/xyz" (from "192.168.1.4"))
           (get "www.megaease.com" "/xyz" (from "192.168.1.1")) methodNotAllowed).
  - discriminate.
  - vm_compute. reflexivity.
  - right. reflexivity.
  - reflexivity.
Defined.

Lemma empty_rules_not_found_witness :
  fst (search (E := simpleExternals Panic)
         (reload (E := simpleExternals Panic)
            {| Spec_IPFilter := None; CacheSize := 100; Spec_Rules := [] |})
         abcRequest)
  = Done (Some notFound).
Proof.
  exact (proj2 (proj2 (@empty_rules_not_found (simpleExternals Panic)
                         {| Spec_IPFilter := None; CacheSize := 100; Spec_Rules := [] |}
                         [] abcRequest eq_refl)) eq_refl).
Defined.

(** * X-Forwarded-For stamping *)

Section StampingProperties.

Context {E : Externals}.

Lemma Header_values_store_same k vs h : Header_values k (Header_store k vs h) = vs.
Proof.
  induction h as [|[k' vs'] h IH]; simpl.
  - now rewrite String.eqb_refl.
  - destruct (String.eqb k k') eqn:Hk; simpl; now rewrite ?String.eqb_refl, ?Hk.
Qed.

Lemma Header_values_store_other k k' vs h :
  k' <> k -> Header_values k' (Header_store k vs h) = Header_values k' h.
Proof.
  intros Hne. apply String.eqb_neq in Hne.
  induction h as [|[k0 vs0] h IH]; simpl.
  - now rewrite Hne.
  - destruct (String.eqb k k0) eqn:Hk; simpl.
    + apply String.eqb_eq in Hk. subst k0. now rewrite Hne.
    + now rewrite IH.
Qed.

Lemma prefix_empty s : String.prefix "" s = true.
Proof. now destruct s. Qed.

Lemma prefix_refl s : String.prefix s s = true.
Proof.
  induction s as [|a s IH]; simpl; auto.
  destruct (ascii_dec a a); congruence.
Qed.

Lemma prefix_app s t : String.prefix s (s ++ t)%string = true.
Proof.
  induction s as [|a s IH]; simpl; [now destruct t|].
  destruct (ascii_dec a a); congruence.
Qed.

Lemma Contains_refl s : strings_Contains s s = true.
Proof. destruct s; simpl; auto. destruct (ascii_dec a a); [now rewrite prefix_refl|congruence]. Qed.

Lemma Contains_cons ch b c :
  strings_Contains b c = true -> strings_Contains (String ch b) c = true.
Proof.
  intros H. simpl. rewrite H.
  now destruct c as [|x c]; [|destruct (ascii_dec x ch); [destruct (String.prefix c b)|]].
Qed.

Lemma Contains_app_right a b c :
  strings_Contains b c = true -> strings_Contains (a ++ b)%string c = true.
Proof.
  intros H. induction a as [|ch a IH]; simpl; auto.
  now apply Contains_cons.
Qed.

Lemma append_nonempty s t : s <> EmptyString -> String.eqb (s ++ t)%string "" = false.
Proof. destruct s; [congruence|reflexivity]. Qed.

(** After stamping, when the header was absent or not empty, its value
    contains the address, and is not empty if the address is not. *)
Lemma stamped_value h ip :
  Header_values (CanonicalMIMEHeaderKey xForwardedFor) h = []
  \/ Header_Get h xForwardedFor <> "" ->
  strings_Contains (Header_Get (appendXForwardedFor h ip) xForwardedFor) ip = true
  /\ (ip <> "" ->
      String.eqb (Header_Get (appendXForwardedFor h ip) xForwardedFor) "" = false).
Proof.
  intros Hpre. unfold appendXForwardedFor.
  destruct (String.eqb (Header_Get h xForwardedFor) "") eqn:Hv.
  - apply String.eqb_eq in Hv. destruct Hpre as [Habs|Hne]; [|contradiction].
    unfold Header_Add. rewrite Habs. simpl.
    unfold Header_Get. rewrite Header_values_store_same. split.
    + apply Contains_refl.
    + intros Hip. now apply String.eqb_neq.
  - destruct (strings_Contains (Header_Get h xForwardedFor) ip) eqn:Hc; simpl; auto.
    unfold Header_Set, Header_Get at 1 3. rewrite Header_values_store_same. split.
    + apply Contains_app_right, Contains_cons, Contains_refl.
    + intros _. apply append_nonempty. now apply String.eqb_neq.
Qed.

(** X15.  Stamping leaves every other header as it is, and the former value
    of X-Forwarded-For is a prefix of the new one, whatever the header held.
    When the header was absent or not empty, its value after stamping contains
    the address. *)
Theorem appendXForwardedFor_stamps (h : list (string * list string)) (ip : string) :
  (forall k, k <> CanonicalMIMEHeaderKey xForwardedFor ->
     Header_values k (appendXForwardedFor h ip) = Header_values k h)
  /\ String.prefix (Header_Get h xForwardedFor)
       (Header_Get (appendXForwardedFor h ip) xForwardedFor) = true
  /\ (Header_values (CanonicalMIMEHeaderKey xForwardedFor) h = []
      \/ Header_Get h xForwardedFor <> "" ->
      strings_Contains (Header_Get (appendXForwardedFor h ip) xForwardedFor) ip = true).
Proof.
  split; [|split; [|intros Hpre; apply (stamped_value h ip Hpre)]];
    unfold appendXForwardedFor;
    destruct (String.eqb (Header_Get h xForwardedFor) "") eqn:Hv.
  - intros k Hk. unfold Header_Add. now apply Header_values_store_other.
  - destruct (strings_Contains (Header_Get h xForwardedFor) ip); simpl; auto.
    intros k Hk. unfold Header_Set. now apply Header_values_store_other.
  - apply String.eqb_eq in Hv. rewrite Hv. apply prefix_empty.
  - destruct (strings_Contains (Header_Get h xForwardedFor) ip); simpl.
    + apply prefix_refl.
    + unfold Header_Set, Header_Get at 2. rewrite Header_values_store_same.
      apply prefix_app.
Qed.

(** X16.  Stamping twice with the same nonempty address is stamping once,
    when the header was absent or not empty. *)
Theorem appendXForwardedFor_idempotent (h : list (string * list string)) (ip : string) :
  Header_values (CanonicalMIMEHeaderKey xForwardedFor) h = []
  \/ Header_Get h xForwardedFor <> "" ->
  ip <> "" ->
  appendXForwardedFor (appendXForwardedFor h ip) ip = appendXForwardedFor h ip.
Proof.
  intros Hpre Hip.
  destruct (stamped_value h ip Hpre) as [Hc Hne].
  unfold appendXForwardedFor at 1. now rewrite (Hne Hip), Hc.
Qed.

End StampingProperties.

Lemma appendXForwardedFor_stamps_witness :
  strings_Contains
    (Header_Get (E := simpleExternals Panic)
       (appendXForwardedFor (E := simpleExternals Panic)
          [("X-Forwarded-For", ["10.1.1.1"])] "192.168.1.1")
       xForwardedFor)
    "192.168.1.1" = true.
Proof.
  refine (proj2 (proj2 (@appendXForwardedFor_stamps (simpleExternals Panic)
                          [("X-Forwarded-For", ["10.1.1.1"])] "192.168.1.1")) _).
  right. discriminate.
Defined.

Lemma appendXForwardedFor_idempotent_witness :
  appendXForwardedFor (E := simpleExternals Panic)
    (appendXForwardedFor (E := simpleExternals Panic) (from "192.168.1.1") "192.168.1.1")
    "192.168.1.1"
  = appendXForwardedFor (E := simpleExternals Panic) (from "192.168.1.1") "192.168.1.1".
Proof.
  apply (@appendXForwardedFor_idempotent (simpleExternals Panic)
           (from "192.168.1.1") "192.168.1.1").
  - left. reflexivity.
  - discriminate.
Defined.

(** * The meta size of a response *)

Lemma int_wrap_small z : (- 2 ^ 63 <= z < 2 ^ 63)%Z -> int_wrap z = z.
Proof.
  intros H. unfold int_wrap. change (2 ^ 63)%Z with 9223372036854775808%Z in *.
  change (2 ^ 64)%Z with 18446744073709551616%Z.
  rewrite Z.mod_small; lia.
Qed.

Lemma int_add_small a b : (0 <= a)%Z -> (0 <= b)%Z -> (a + b < 2 ^ 63)%Z -> int_add a b = (a + b)%Z.
Proof.
  intros Ha Hb H. apply int_wrap_small. change (2 ^ 63)%Z with 9223372036854775808%Z in *. lia.
Qed.

Lemma len_nonneg s : (0 <= len s)%Z.
Proof. unfold len. lia. Qed.

Lemma len_append s t : len (s ++ t)%string = (len s + len t)%Z.
Proof.
  unfold len. induction s as [|a s IH]; simpl String.length; [reflexivity|]. lia.
Qed.

Lemma Itoa_three_digits n :
  (100 <= n < 1000)%Z -> String.length (strconv_Itoa n) = 3.
Proof.
  intros H.
  assert (Hall : forallb (fun k => (String.length (strconv_Itoa (Z.of_nat k)) =? 3)%nat)
                         (seq 100 900) = true) by (vm_compute; reflexivity).
  rewrite forallb_forall in Hall. specialize (Hall (Z.to_nat n)).
  rewrite Z2Nat.id in Hall by lia. apply Nat.eqb_eq, Hall, in_seq. lia.
Qed.

Lemma valuesBytes_nonneg key vs : (0 <= valuesBytes key vs)%Z.
Proof.
  induction vs as [|v vs IH]; simpl; [lia|].
  pose proof (len_nonneg key). pose proof (len_nonneg v). lia.
Qed.

Lemma headerBytes_nonneg h : (0 <= headerBytes h)%Z.
Proof.
  induction h as [|[k vs] h IH]; simpl; [lia|]. pose proof (valuesBytes_nonneg k vs). lia.
Qed.

Lemma headerCount_nonneg h : (0 <= headerCount h)%Z.
Proof. induction h as [|[k vs] h IH]; simpl; lia. Qed.

(** The two loops count the lines and add up the bytes, as long as the sums
    fit an int. *)
Lemma rangeValues_exact key vs : forall lines size,
  (0 <= lines)%Z -> (0 <= size)%Z ->
  (lines + Z.of_nat (List.length vs) < 2 ^ 63)%Z ->
  (size + valuesBytes key vs < 2 ^ 63)%Z ->
  rangeValues key vs (lines, size)
  = ((lines + Z.of_nat (List.length vs))%Z, (size + valuesBytes key vs)%Z).
Proof.
  induction vs as [|v vs IH]; intros lines size Hl Hs Hbl Hbs; simpl rangeValues.
  - simpl. f_equal; lia.
  - simpl fst. simpl snd.
    pose proof (len_nonneg key). pose proof (len_nonneg v).
    pose proof (valuesBytes_nonneg key vs).
    simpl valuesBytes in Hbs. simpl List.length in Hbl.
    rewrite (@int_add_small lines 1) by lia.
    rewrite (@int_add_small (len key) (len v)) by lia.
    rewrite (@int_add_small size (len key + len v)) by lia.
    rewrite IH by lia. simpl valuesBytes. simpl List.length. f_equal; lia.
Qed.

Lemma rangeHeader_exact h : forall lines size,
  (0 <= lines)%Z -> (0 <= size)%Z ->
  (lines + headerCount h < 2 ^ 63)%Z ->
  (size + headerBytes h < 2 ^ 63)%Z ->
  rangeHeader h (lines, size) = ((lines + headerCount h)%Z, (size + headerBytes h)%Z).
Proof.
  induction h as [|[k vs] h IH]; intros lines size Hl Hs Hbl Hbs; simpl.
  - f_equal; lia.
  - simpl in Hbl, Hbs.
    pose proof (valuesBytes_nonneg k vs). pose proof (headerBytes_nonneg h).
    pose proof (headerCount_nonneg h).
    rewrite rangeValues_exact by lia.
    rewrite IH by lia. f_equal; lia.
Qed.

Lemma len_CRLF : len CRLF = 2%Z.
Proof. reflexivity. Qed.

Lemma len_concat_CRLF ls :
  len (String.concat CRLF ls)
  = (fold_right (fun s a => len s + a) 0 ls
     + 2 * Z.max 0 (Z.of_nat (List.length ls) - 1))%Z.
Proof.
  induction ls as [|s ls IH]; [reflexivity|].
  destruct ls as [|t ls].
  - simpl. lia.
  - change (String.concat CRLF (s :: t :: ls))
      with (s ++ CRLF ++ String.concat CRLF (t :: ls))%string.
    rewrite !len_append, IH, len_CRLF.
    simpl fold_right. simpl List.length. lia.
Qed.

Lemma headerLines_count h : Z.of_nat (List.length (headerLines h)) = headerCount h.
Proof.
  unfold headerLines. induction h as [|[k vs] h IH]; [reflexivity|].
  cbn [flat_map fst snd headerCount].
  rewrite length_app, length_map, Nat2Z.inj_add. f_equal. exact IH.
Qed.

Lemma headerLines_bytes h :
  fold_right (fun s a => len s + a)%Z 0%Z (headerLines h)
  = (headerBytes h + 2 * headerCount h)%Z.
Proof.
  unfold headerLines. induction h as [|[k vs] h IH]; [reflexivity|].
  cbn [flat_map fst snd headerBytes headerCount].
  rewrite fold_right_app, IH. clear IH.
  induction vs as [|v vs IHv]; cbn [map fold_right valuesBytes List.length]; [lia|].
  rewrite !len_append, IHv. change (len ": ") with 2%Z. lia.
Qed.

Section MetaSizeProperties.

Variable http_StatusText : Z -> string.

Lemma len_metaText r :
  len (metaText http_StatusText r)
  = (len (Proto r) + 1 + len (strconv_Itoa (StatusCode r)) + 1
     + len (statusText http_StatusText r) + 2
     + (headerBytes (Response_Header r) + 2 * headerCount (Response_Header r)
        + 2 * Z.max 0 (headerCount (Response_Header r) - 1)))%Z.
Proof.
  unfold metaText. rewrite !len_append, len_concat_CRLF, headerLines_count,
    headerLines_bytes, len_CRLF.
  change (len " ") with 1%Z. lia.
Qed.

(** X17.  The size MetaSize computes without building any string is the
    length of the status line followed by the header lines, each
    [key: value], with CR LF between the lines, for every status code and
    header, as long as that length fits an int. *)
Theorem MetaSize_is_length (r : Response) :
  (len (metaText http_StatusText r) < 2 ^ 63)%Z ->
  MetaSize http_StatusText r = len (metaText http_StatusText r).
Proof.
  rewrite len_metaText. intros Hb. unfold MetaSize.
  pose proof (len_nonneg (Proto r)) as H1.
  pose proof (len_nonneg (strconv_Itoa (StatusCode r))) as H2.
  pose proof (len_nonneg (statusText http_StatusText r)) as H3.
  pose proof (headerBytes_nonneg (Response_Header r)) as H4.
  pose proof (headerCount_nonneg (Response_Header r)) as H5.
  set (P := len (Proto r)) in *.
  set (D := len (strconv_Itoa (StatusCode r))) in *.
  set (T := len (statusText http_StatusText r)) in *.
  set (B := headerBytes (Response_Header r)) in *.
  set (N := headerCount (Response_Header r)) in *.
  rewrite (@int_add_small P 1) by lia.
  assert (Hd : (if (100 <=? StatusCode r)%Z && (StatusCode r <? 1000)%Z
                then int_add (P + 1) (int_add 3 1)
                else int_add (P + 1) (int_add D 1)) = (P + 1 + D + 1)%Z).
  { destruct ((100 <=? StatusCode r)%Z && (StatusCode r <? 1000)%Z) eqn:Hr.
    - apply andb_true_iff in Hr. destruct Hr as [Ha Hc].
      apply Z.leb_le in Ha. apply Z.ltb_lt in Hc.
      assert (HD : D = 3%Z).
      { unfold D, len. rewrite Itoa_three_digits by lia. reflexivity. }
      rewrite (@int_add_small 3 1) by lia.
      rewrite int_add_small by lia. lia.
    - rewrite (@int_add_small D 1) by lia.
      rewrite int_add_small by lia. lia. }
  rewrite Hd.
  rewrite (@int_add_small T 2) by lia.
  rewrite (@int_add_small (P + 1 + D + 1) (T + 2)) by lia.
  rewrite rangeHeader_exact by (fold B N; lia). fold B N.
  assert (Hm : int_mul (0 + N) 2 = (2 * N)%Z).
  { unfold int_mul. rewrite int_wrap_small; lia. }
  rewrite Hm.
  match goal with
  | |- context [int_add ?a (2 * N)%Z] => rewrite (@int_add_small a (2 * N)%Z) by lia
  end.
  destruct (1 <? 0 + N)%Z eqn:Hn.
  - apply Z.ltb_lt in Hn.
    assert (Hs : int_sub (0 + N) 1 = (N - 1)%Z).
    { unfold int_sub. rewrite int_wrap_small; lia. }
    assert (Hm2 : int_mul (N - 1) 2 = (2 * (N - 1))%Z).
    { unfold int_mul. rewrite int_wrap_small; lia. }
    rewrite Hs, Hm2.
    match goal with
    | |- int_add ?a ?b = _ => rewrite (@int_add_small a b) by lia
    end.
    lia.
  - apply Z.ltb_ge in Hn. lia.
Qed.

End MetaSizeProperties.

Lemma MetaSize_is_length_witness :
  MetaSize (fun _ => "Not Found")
    {| Proto := "HTTP/1.1"; StatusCode := 404;
       Response_Header := [("Content-Type", ["text/plain"]); ("Vary", ["a"; "b"])] |}
  = 66%Z.
Proof.
  refine (eq_trans (@MetaSize_is_length (fun _ => "Not Found")
            {| Proto := "HTTP/1.1"; StatusCode := 404;
               Response_Header := [("Content-Type", ["text/plain"]); ("Vary", ["a"; "b"])] |}
            _) _).
  - vm_compute. reflexivity.
  - vm_compute. reflexivity.
Defined.

(** * The configuration of the HTTP server plugin *)

Section PluginConfigProperties.

Variable commonPrepare : option string.
Variable strings_TrimSpace : string -> string.
Variable certHomeJoin : string -> string.
Variable os_Stat : string -> statResult.

Lemma length_zero s : (String.length s =? 0)%nat = String.eqb s "".
Proof. now destruct s. Qed.

Lemma checkNumbers_None c :
  checkNumbers c = None
  <-> conf_Port c <> 0%Z /\ ConnKeepAliveSec c <> 0%Z /\ MaxSimulConns c <> 0%Z.
Proof.
  unfold checkNumbers.
  destruct (conf_Port c =? 0)%Z eqn:H1; [apply Z.eqb_eq in H1|apply Z.eqb_neq in H1];
  (destruct (ConnKeepAliveSec c =? 0)%Z eqn:H2;
    [apply Z.eqb_eq in H2|apply Z.eqb_neq in H2]);
  (destruct (MaxSimulConns c =? 0)%Z eqn:H3;
    [apply Z.eqb_eq in H3|apply Z.eqb_neq in H3]);
  split; try discriminate; try tauto.
Qed.

Lemma done_numbers (c1 : httpServerConfig) :
  (exists c', @Done (option string * httpServerConfig) (checkNumbers c1, c1)
              = Done (None, c'))
  <-> conf_Port c1 <> 0%Z /\ ConnKeepAliveSec c1 <> 0%Z /\ MaxSimulConns c1 <> 0%Z.
Proof.
  rewrite <- checkNumbers_None. split.
  - intros [c' H]. now injection H.
  - intros ->. eauto.
Qed.

(** X18.  Prepare accepts a configuration exactly when the common
    configuration is accepted, the host is not blank, the port, the keep-alive
    period and the connection limit are not zero and, if a certificate file or
    a key file is named, both exist and are not directories. *)
Theorem Prepare_accepts (c : httpServerConfig) :
  (exists c', Prepare commonPrepare strings_TrimSpace certHomeJoin os_Stat c
              = Done (None, c'))
  <-> commonPrepare = None
      /\ strings_TrimSpace (conf_Host c) <> ""
      /\ ((strings_TrimSpace (conf_CertFile c) = ""
           /\ strings_TrimSpace (conf_KeyFile c) = "")
          \/ (os_Stat (certHomeJoin (strings_TrimSpace (conf_CertFile c))) = StatFile
              /\ os_Stat (certHomeJoin (strings_TrimSpace (conf_KeyFile c))) = StatFile))
      /\ conf_Port c <> 0%Z /\ ConnKeepAliveSec c <> 0%Z /\ MaxSimulConns c <> 0%Z.
Proof.
  unfold Prepare, missingOrDir.
  destruct commonPrepare as [e|].
  { split; [intros [c' H]; discriminate | intros [H _]; discriminate]. }
  rewrite !length_zero. cbn [conf_Host conf_CertFile conf_KeyFile certFilePath keyFilePath].
  destruct (String.eqb (strings_TrimSpace (conf_Host c)) "") eqn:Hh;
    [apply String.eqb_eq in Hh|apply String.eqb_neq in Hh].
  { split; [intros [c' H]; discriminate | intros (_ & H & _); contradiction]. }
  destruct (String.eqb (strings_TrimSpace (conf_CertFile c)) "") eqn:Hc;
    [apply String.eqb_eq in Hc|apply String.eqb_neq in Hc];
  (destruct (String.eqb (strings_TrimSpace (conf_KeyFile c)) "") eqn:Hk;
    [apply String.eqb_eq in Hk|apply String.eqb_neq in Hk]);
  cbn [negb orb].
  1: { rewrite done_numbers. cbn [conf_Port ConnKeepAliveSec MaxSimulConns]. tauto. }
  all: destruct (os_Stat (certHomeJoin (strings_TrimSpace (conf_CertFile c)))) eqn:Hsc;
    try (split; [intros [c' H]; discriminate
                | intros (_ & _ & [[? ?]|[? ?]] & _); congruence]).
  all: destruct (os_Stat (certHomeJoin (strings_TrimSpace (conf_KeyFile c)))) eqn:Hsk;
    try (split; [intros [c' H]; discriminate
                | intros (_ & _ & [[? ?]|[? ?]] & _); congruence]).
  all: rewrite done_numbers; cbn [conf_Port ConnKeepAliveSec MaxSimulConns]; tauto.
Qed.

(** X19.  A configuration that Prepare accepts has its host, certificate
    file and key file trimmed, keeps its port, keep-alive settings and
    connection limit, and has https set when a certificate or key file is
    named, in which case the two file paths are the names joined to the
    certificate directory; otherwise https and the paths are as before. *)
Theorem Prepare_result (c c' : httpServerConfig) :
  Prepare commonPrepare strings_TrimSpace certHomeJoin os_Stat c = Done (None, c') ->
  conf_Host c' = strings_TrimSpace (conf_Host c)
  /\ conf_CertFile c' = strings_TrimSpace (conf_CertFile c)
  /\ conf_KeyFile c' = strings_TrimSpace (conf_KeyFile c)
  /\ conf_Port c' = conf_Port c /\ ConnKeepAlive c' = ConnKeepAlive c
  /\ ConnKeepAliveSec c' = ConnKeepAliveSec c /\ MaxSimulConns c' = MaxSimulConns c
  /\ (if String.eqb (conf_CertFile c') "" && String.eqb (conf_KeyFile c') ""
      then https c' = https c /\ certFilePath c' = certFilePath c
           /\ keyFilePath c' = keyFilePath c
      else https c' = true /\ certFilePath c' = certHomeJoin (conf_CertFile c')
           /\ keyFilePath c' = certHomeJoin (conf_KeyFile c')).
Proof.
  unfold Prepare, missingOrDir.
  destruct commonPrepare as [e|]; [discriminate|].
  rewrite !length_zero. cbn [conf_Host conf_CertFile conf_KeyFile certFilePath keyFilePath].
  destruct (String.eqb (strings_TrimSpace (conf_Host c)) ""); [discriminate|].
  destruct (String.eqb (strings_TrimSpace (conf_CertFile c)) "") eqn:Hc;
  destruct (String.eqb (strings_TrimSpace (conf_KeyFile c)) "") eqn:Hk;
  cbn [negb orb].
  1: { intros [= _ <-]. cbn. rewrite Hc, Hk. cbn. repeat split. }
  all: destruct (os_Stat (certHomeJoin (strings_TrimSpace (conf_CertFile c))));
    try discriminate;
    destruct (os_Stat (certHomeJoin (strings_TrimSpace (conf_KeyFile c))));
    try discriminate;
    intros [= _ <-]; cbn; rewrite Hc, Hk; cbn; repeat split.
Qed.

(** X20.  Prepare panics exactly when the common configuration is accepted,
    the host is not blank, a certificate or key file is named, and os.Stat
    fails with an error other than the absence of the file on the certificate
    path or, the certificate being a plain file, on the key path: the file
    information is then nil when IsDir is called on it. *)
Theorem Prepare_panics (c : httpServerConfig) :
  Prepare commonPrepare strings_TrimSpace certHomeJoin os_Stat c = Panic
  <-> commonPrepare = None
      /\ strings_TrimSpace (conf_Host c) <> ""
      /\ (strings_TrimSpace (conf_CertFile c) <> ""
          \/ strings_TrimSpace (conf_KeyFile c) <> "")
      /\ (os_Stat (certHomeJoin (strings_TrimSpace (conf_CertFile c))) = StatOtherError
          \/ (os_Stat (certHomeJoin (strings_TrimSpace (conf_CertFile c))) = StatFile
              /\ os_Stat (certHomeJoin (strings_TrimSpace (conf_KeyFile c)))
                 = StatOtherError)).
Proof.
  unfold Prepare, missingOrDir.
  destruct commonPrepare as [e|].
  { split; [discriminate | intros [H _]; discriminate]. }
  rewrite !length_zero. cbn [conf_Host conf_CertFile conf_KeyFile certFilePath keyFilePath].
  destruct (String.eqb (strings_TrimSpace (conf_Host c)) "") eqn:Hh;
    [apply String.eqb_eq in Hh|apply String.eqb_neq in Hh].
  { split; [discriminate | intros (_ & H & _); contradiction]. }
  destruct (String.eqb (strings_TrimSpace (conf_CertFile c)) "") eqn:Hc;
    [apply String.eqb_eq in Hc|apply String.eqb_neq in Hc];
  (destruct (String.eqb (strings_TrimSpace (conf_KeyFile c)) "") eqn:Hk;
    [apply String.eqb_eq in Hk|apply String.eqb_neq in Hk]);
  cbn [negb orb].
  1: { split; [discriminate | intros (_ & _ & [H|H] & _); contradiction]. }
  all: destruct (os_Stat (certHomeJoin (strings_TrimSpace (conf_CertFile c)))) eqn:Hsc;
    try (split; [discriminate | intros (_ & _ & _ & [H|[H _]]); discriminate]);
    try (split; [intros _; repeat split; auto | reflexivity]).
  all: destruct (os_Stat (certHomeJoin (strings_TrimSpace (conf_KeyFile c)))) eqn:Hsk;
    try (split; [discriminate | intros (_ & _ & _ & [H|[_ H]]); discriminate]);
    try (split; [intros _; repeat split; auto | reflexivity]).
Qed.

End PluginConfigProperties.

Lemma Prepare_result_witness :
  https httpServerConfigConstructor = false
  /\ conf_Host httpServerConfigConstructor = "localhost".
Proof.
  destruct (@Prepare_result None (fun s => s) (fun s => s) (fun _ => StatNotExist)
              httpServerConfigConstructor httpServerConfigConstructor eq_refl)
    as (H1 & _ & _ & _ & _ & _ & _ & H2 & _).
  split; [exact H2 | exact H1].
Defined.

(** * The earlier revision: muxRules *)

Section EarlierRevision.

Context {E : Externals}.
Variable Cache : Type.
Variable cache_get : Cache -> string -> option V1.cacheItem.
Variable cache_put : Cache -> string -> V1.cacheItem -> Cache.
Variable handlers : string -> option bool.
Variable XForwardedFor : bool.

Local Abbreviation handle := (V1.handleRequestWithCache handlers XForwardedFor).
Local Abbreviation servePath := (V1.servePath cache_put handlers XForwardedFor).
Local Abbreviation rangePaths := (V1.rangePaths cache_put handlers XForwardedFor).
Local Abbreviation rangeRules := (V1.rangeRules cache_put handlers XForwardedFor).
Local Abbreviation ServeHTTP := (V1.ServeHTTP cache_get cache_put handlers XForwardedFor).

(** X21.  In the earlier revision the path loop is decided by the first path
    of the rule that matches by path: whatever its method, filter and header
    checks give is the answer, and no later path is looked at; the loop goes
    through all the paths exactly when none matches by path. *)
Theorem V1_first_path_decides (mr : V1.muxRules Cache) (ctx : Request)
    (ps : list V1.muxPath) :
  match rangePaths mr ctx ps with
  | None => existsb (fun p => V1.matchPath p ctx) ps = false
  | Some res =>
      exists before p after,
        ps = before ++ p :: after
        /\ existsb (fun p => V1.matchPath p ctx) before = false
        /\ V1.matchPath p ctx = true
        /\ res = servePath mr ctx p
  end.
Proof.
  induction ps as [|p ps IH]; simpl; auto.
  destruct (V1.matchPath p ctx) eqn:Hp; simpl.
  - exists [], p, ps. auto.
  - destruct (rangePaths mr ctx ps) as [res|]; auto.
    destruct IH as (before & q & after & -> & Hb & Hq & Hres).
    exists (p :: before), q, after. simpl. rewrite Hp, Hb. auto.
Qed.

(** When the path loop returns, it returns what a path of the list that
    matches by path gives. *)
Lemma V1_rangePaths_Some mr ctx ps res :
  rangePaths mr ctx ps = Some res ->
  exists p, In p ps /\ V1.matchPath p ctx = true /\ res = servePath mr ctx p.
Proof.
  induction ps as [|p ps IH]; simpl; [discriminate|].
  destruct (V1.matchPath p ctx) eqn:Hp; simpl.
  - intros [= <-]. exists p. auto.
  - intros H. destruct (IH H) as (q & Hin & Hq & Hres). exists q. auto.
Qed.

Lemma V1_handle_Handle ctx ci b st :
  handle ctx ci = V1.Handle b st ->
  b = V1.item_backend ci /\ b <> "" /\ handlers b = Some true /\ st = XForwardedFor
  /\ match V1.ipFilterChan ci with
     | Some chain => IPFilters_Allow chain (realip_FromRequest ctx) = true
     | None => True
     end.
Proof.
  unfold V1.handleRequestWithCache.
  destruct (V1.ipFilterChan ci) as [chain|].
  - destruct (IPFilters_Allow chain (realip_FromRequest ctx)); simpl; [|discriminate].
    destruct (V1.notFound ci); [discriminate|].
    destruct (V1.methodNotAllowed ci); [discriminate|].
    destruct (String.eqb (V1.item_backend ci) "") eqn:Hb; simpl; [discriminate|].
    apply String.eqb_neq in Hb.
    destruct (handlers (V1.item_backend ci)) as [[|]|] eqn:Hh; try discriminate.
    intros [= <- <-]. auto.
  - destruct (V1.notFound ci); [discriminate|].
    destruct (V1.methodNotAllowed ci); [discriminate|].
    destruct (String.eqb (V1.item_backend ci) "") eqn:Hb; simpl; [discriminate|].
    apply String.eqb_neq in Hb.
    destruct (handlers (V1.item_backend ci)) as [[|]|] eqn:Hh; try discriminate.
    intros [= <- <-]. auto.
Qed.

Lemma V1_matchHeaders_loop_Some chain hs ctx ci :
  V1.matchHeaders_loop chain hs ctx = Some ci ->
  V1.ipFilterChan ci = chain
  /\ exists hd, In hd hs /\ V1.item_backend ci = V1.Backend hd.
Proof.
  induction hs as [|hd hs IH]; simpl; [discriminate|].
  destruct (StrInSlice _ _ || _).
  - intros [= <-]. simpl. split; auto. exists hd. auto.
  - intros H. destruct (IH H) as [Hc [hd' [Hin Hb]]]. split; auto.
    exists hd'. auto.
Qed.

(** A path hands the request over only when its method, its own filter and its
    chain accept it, to its own backend or to the backend of one of its header
    predicates, which has a handler. *)
Lemma V1_servePath_Handle mr ctx p b st :
  fst (servePath mr ctx p) = V1.Handle b st ->
  V1.matchMethod p ctx = true /\ V1.pass (V1.ipFilter p) ctx = true
  /\ match V1.ipFilterChain p with
     | Some chain => IPFilters_Allow chain (realip_FromRequest ctx) = true
     | None => True
     end
  /\ (b = V1.backend p \/ exists hd, In hd (V1.headers p) /\ b = V1.Backend hd)
  /\ handlers b = Some true /\ st = XForwardedFor.
Proof.
  unfold V1.servePath.
  destruct (V1.matchMethod p ctx); simpl.
  - destruct (V1.pass (V1.ipFilter p) ctx); simpl; [|discriminate].
    destruct (V1.matchHeaders p ctx) as [ci|] eqn:Hm; simpl; intros H;
      apply V1_handle_Handle in H; destruct H as (Hb & _ & Hh & Hs & Hc).
    + apply V1_matchHeaders_loop_Some in Hm. destruct Hm as [Hch [hd [Hin Hbk]]].
      rewrite Hch in Hc. repeat split; auto. right. exists hd. split; congruence.
    + simpl in *. repeat split; auto.
  - intros H. apply V1_handle_Handle in H. simpl in H.
    destruct H as (Hb & Hne & _). contradiction.
Qed.

(** X22.  In the earlier revision a request that misses the cache is handed
    to a backend only when the server filter allows the client and some path
    of some rule, taken in their order, is such that the rule matches the host
    and its filter allows the client, the path matches by path and by method,
    its own filter and its chain allow the client, the backend is that of the
    path or of one of its header predicates, and the backend has a handler. *)
Theorem V1_handoff_is_allowed (mr : V1.muxRules Cache) (ctx : Request)
    (b : string) (st : bool) :
  V1.getCacheItem cache_get mr ctx = None ->
  fst (ServeHTTP mr ctx) = V1.Handle b st ->
  V1.pass (V1.rules_ipFilter mr) ctx = true
  /\ exists h p,
       In h (V1.rules mr) /\ In p (V1.paths h)
       /\ V1.muxRule_match h ctx = true /\ V1.pass (V1.rule_ipFilter h) ctx = true
       /\ V1.matchPath p ctx = true /\ V1.matchMethod p ctx = true
       /\ V1.pass (V1.ipFilter p) ctx = true
       /\ match V1.ipFilterChain p with
          | Some chain => IPFilters_Allow chain (realip_FromRequest ctx) = true
          | None => True
          end
       /\ (b = V1.backend p \/ exists hd, In hd (V1.headers p) /\ b = V1.Backend hd)
       /\ handlers b = Some true.
Proof.
  intros Hmiss. unfold V1.ServeHTTP. rewrite Hmiss.
  destruct (V1.pass (V1.rules_ipFilter mr) ctx); simpl; [|discriminate].
  intros H. split; auto.
  assert (Hrules : forall hs res,
            rangeRules mr ctx hs = Some res -> fst res = V1.Handle b st ->
            exists h p,
              In h hs /\ In p (V1.paths h)
              /\ V1.muxRule_match h ctx = true /\ V1.pass (V1.rule_ipFilter h) ctx = true
              /\ V1.matchPath p ctx = true /\ V1.matchMethod p ctx = true
              /\ V1.pass (V1.ipFilter p) ctx = true
              /\ match V1.ipFilterChain p with
                 | Some chain => IPFilters_Allow chain (realip_FromRequest ctx) = true
                 | None => True
                 end
              /\ (b = V1.backend p \/ exists hd, In hd (V1.headers p) /\ b = V1.Backend hd)
              /\ handlers b = Some true).
  { induction hs as [|h hs IH]; simpl; intros res Hr Hres; [discriminate|].
    destruct (V1.muxRule_match h ctx) eqn:Hm; simpl in Hr.
    - destruct (V1.pass (V1.rule_ipFilter h) ctx) eqn:Hp; simpl in Hr.
      + destruct (rangePaths mr ctx (V1.paths h)) as [res'|] eqn:Hfirst.
        * injection Hr as ->.
          apply V1_rangePaths_Some in Hfirst.
          destruct Hfirst as (p & Hin & Hmp & ->).
          apply V1_servePath_Handle in Hres.
          destruct Hres as (H1 & H2 & H3 & H4 & H5 & _).
          exists h, p. repeat split; auto.
        * destruct (IH res Hr Hres) as (h' & p & Hin & Hrest).
          exists h', p. split; auto.
      + injection Hr as <-. discriminate.
    - destruct (IH res Hr Hres) as (h' & p & Hin & Hrest).
      exists h', p. split; auto. }
  destruct (rangeRules mr ctx (V1.rules mr)) as [res|] eqn:Hr.
  - exact (Hrules _ _ Hr H).
  - simpl in H. apply V1_handle_Handle in H. simpl in H.
    destruct H as (Hb & Hne & _). contradiction.
Qed.

(** What an item put in the cache may be: a NotFound item, a
    MethodNotAllowed item, or the item of a path of [hs] whose header
    predicates the request does not meet, with the backend of that path. *)
Lemma V1_servePath_cache mr ctx p :
  snd (servePath mr ctx p) = V1.cache mr
  \/ exists c ci,
       V1.cache mr = Some c
       /\ snd (servePath mr ctx p) = Some (cache_put c (V1.cacheKey ctx) ci)
       /\ V1.cached ci = true /\ V1.ipFilterChan ci = V1.ipFilterChain p
       /\ (V1.methodNotAllowed ci = true
           \/ (V1.item_backend ci = V1.backend p /\ V1.matchHeaders p ctx = None)).
Proof.
  unfold V1.servePath, V1.putCacheItem.
  destruct (V1.matchMethod p ctx); simpl.
  - destruct (V1.pass (V1.ipFilter p) ctx); simpl; auto.
    destruct (V1.matchHeaders p ctx) as [ci|] eqn:Hm; simpl; auto.
    destruct (V1.cache mr) as [c|]; auto.
    right. eexists c, _. repeat split; simpl; auto.
  - destruct (V1.cache mr) as [c|]; auto.
    right. eexists c, _. repeat split; simpl; auto.
Qed.

(** X23.  In the earlier revision a call of ServeHTTP leaves the cache as it
    is or puts one item under the key made of the method and the path of the
    request: a NotFound item, or, with the chain of a path of the rules, a
    MethodNotAllowed item or an item with the backend of that path, the
    request meeting none of its header predicates.  A backend chosen by a
    header predicate is never put in the cache. *)
Theorem V1_cache_discipline (mr : V1.muxRules Cache) (ctx : Request) :
  snd (ServeHTTP mr ctx) = V1.cache mr
  \/ exists c ci,
       V1.cache mr = Some c
       /\ snd (ServeHTTP mr ctx) = Some (cache_put c (V1.cacheKey ctx) ci)
       /\ V1.cached ci = true
       /\ ((V1.notFound ci = true /\ V1.ipFilterChan ci = V1.rules_ipFilterChan mr)
           \/ exists h p,
                In h (V1.rules mr) /\ In p (V1.paths h)
                /\ V1.ipFilterChan ci = V1.ipFilterChain p
                /\ (V1.methodNotAllowed ci = true
                    \/ (V1.item_backend ci = V1.backend p
                        /\ V1.matchHeaders p ctx = None))).
Proof.
  unfold V1.ServeHTTP.
  destruct (V1.getCacheItem cache_get mr ctx); simpl; auto.
  destruct (V1.pass (V1.rules_ipFilter mr) ctx); simpl; auto.
  assert (Hrules : forall hs res,
            rangeRules mr ctx hs = Some res ->
            snd res = V1.cache mr
            \/ exists c ci,
                 V1.cache mr = Some c
                 /\ snd res = Some (cache_put c (V1.cacheKey ctx) ci)
                 /\ V1.cached ci = true
                 /\ exists h p,
                      In h hs /\ In p (V1.paths h)
                      /\ V1.ipFilterChan ci = V1.ipFilterChain p
                      /\ (V1.methodNotAllowed ci = true
                          \/ (V1.item_backend ci = V1.backend p
                              /\ V1.matchHeaders p ctx = None))).
  { induction hs as [|h hs IH]; simpl; intros res Hr; [discriminate|].
    destruct (V1.muxRule_match h ctx); simpl in Hr.
    - destruct (V1.pass (V1.rule_ipFilter h) ctx); simpl in Hr.
      + destruct (rangePaths mr ctx (V1.paths h)) as [res'|] eqn:Hfirst.
        * injection Hr as ->.
          apply V1_rangePaths_Some in Hfirst.
          destruct Hfirst as (p & Hin & _ & ->).
          destruct (V1_servePath_cache mr ctx p)
            as [Hsame|(c & ci & Hc & Hput & Hcd & Hch & Hkind)]; auto.
          right. exists c, ci. repeat split; auto.
          exists h, p. repeat split; auto.
        * destruct (IH res Hr) as [Hsame|(c & ci & Hc & Hput & Hcd & h' & p & Hin & Hrest)];
            auto.
          right. exists c, ci. repeat split; auto. exists h', p. split; auto.
      + injection Hr as <-. auto.
    - destruct (IH res Hr) as [Hsame|(c & ci & Hc & Hput & Hcd & h' & p & Hin & Hrest)];
        auto.
      right. exists c, ci. repeat split; auto. exists h', p. split; auto. }
  destruct (rangeRules mr ctx (V1.rules mr)) as [res|] eqn:Hr.
  - destruct (Hrules _ _ Hr) as [Hsame|(c & ci & Hc & Hput & Hcd & Hex)]; auto.
    right. exists c, ci. auto.
  - simpl. unfold V1.putCacheItem. destruct (V1.cache mr) as [c|]; auto.
    right. eexists c, _. repeat split; simpl; auto.
Qed.

End EarlierRevision.

Lemma V1_handoff_is_allowed_witness :
  V1.pass (E := simpleExternals Panic) (V1.rules_ipFilter abcRulesV1)
    (get "www.megaease.com" "/abc" []) = true.
Proof.
  exact (proj1 (@V1_handoff_is_allowed (simpleExternals Panic) unit
                  (fun _ _ => None) (fun c _ _ => c) (fun _ => Some true) true
                  abcRulesV1 (get "www.megaease.com" "/abc" []) "abc-pipeline" true
                  eq_refl eq_refl)).
Defined.

(** * Without a cache *)

Section Stateless.

Context {E : Externals}.

Lemma put_without_cache mi req v : cache mi = None -> putRouteToCache mi req v = mi.
Proof. unfold putRouteToCache. now intros ->. Qed.

Lemma rangePaths_without_cache req ip ps : forall l mi,
  cache mi = None -> flowInstance (rangePaths req ip ps l mi) = mi.
Proof.
  induction ps as [|p ps IH]; simpl; intros l mi Hc; auto.
  assert (Hv : flowInstance (visitPath req ip p l mi) = mi).
  { unfold visitPath. rewrite (@put_without_cache mi req (okRoute p) Hc).
    destruct (matchPath p req), (matchMethod p req), (length (headers p) =? 0)%nat,
      (matchHeaders p req), (allowIP (path_ipFilter p) ip); reflexivity. }
  destruct (visitPath req ip p l mi) as [l1 mi1| |]; simpl in *; auto.
  subst mi1. now apply IH.
Qed.

Lemma rangeRules_without_cache req ip hs : forall l mi,
  cache mi = None -> flowInstance (rangeRules req ip hs l mi) = mi.
Proof.
  induction hs as [|h hs IH]; simpl; intros l mi Hc; auto.
  assert (Hv : flowInstance (visitRule req ip h l mi) = mi).
  { unfold visitRule. destruct (muxRule_match h req); simpl; auto.
    destruct (IPFilter_Allow (rule_ipFilter h) ip) as [[|]|]; simpl; auto.
    now apply rangePaths_without_cache. }
  destruct (visitRule req ip h l mi) as [l1 mi1| |]; simpl in *; auto.
  subst mi1. now apply IH.
Qed.

(** X24.  Without a cache a call of search leaves the instance exactly as
    it is, so that the same request gets the same answer again. *)
Theorem search_without_cache (mi : muxInstance) (req : Request) :
  cache mi = None ->
  snd (search mi req) = mi
  /\ fst (search (snd (search mi req)) req) = fst (search mi req).
Proof.
  intros Hc.
  assert (Hs : snd (search mi req) = mi).
  { unfold search, getCacheRoute. rewrite Hc.
    destruct (allowIP (inst_ipFilter mi) (realip_FromRequest req)); simpl; auto.
    pose proof (@rangeRules_without_cache req (realip_FromRequest req) (rules mi)
                  initLocals mi Hc) as Hr.
    destruct (rangeRules req (realip_FromRequest req) (rules mi) initLocals mi)
      as [l mi1|v mi1|mi1]; simpl in *; auto.
    subst mi1. unfold fallbacks.
    destruct (headerMismatch l); simpl; auto.
    destruct (methodMismatch l); simpl; now apply put_without_cache. }
  split; auto. now rewrite Hs.
Qed.

End Stateless.

Lemma search_without_cache_witness :
  snd (search (E := simpleExternals (Done true))
         (reload (E := simpleExternals (Done true)) (abcSpec 0)) abcRequest)
  = reload (E := simpleExternals (Done true)) (abcSpec 0).
Proof.
  exact (proj1 (@search_without_cache (simpleExternals (Done true))
                  (reload (E := simpleExternals (Done true)) (abcSpec 0))
                  abcRequest eq_refl)).
Defined.
